(** * gozstd: planner, workers, reassembler, orchestrator and command line

    Shallow embedding of [main.go]: the block-mode compression pipeline
    ([divideFileIntoSegments], [compressPart], [concatenateFiles],
    [compressFileBlock]), [divmod], the stream paths ([compressStream],
    [decompressFile]) and [main] after [flag.Parse].  Go's [int64] and [int]
    (64-bit) arithmetic is modelled on [Z] with two's-complement
    wrap-around written out. *)

From Stdlib Require Import ZArith Lia List String Ascii Init.Byte DecimalZ.
From stdpp Require Import base gmap strings list sorting.
Import ListNotations.
Open Scope Z_scope.

(** ** Go 64-bit integers *)

Definition wrap64 (z : Z) : Z := (z + 2^63) mod 2^64 - 2^63.

Definition i64add (x y : Z) : Z := wrap64 (x + y).
Definition i64sub (x y : Z) : Z := wrap64 (x - y).
Definition i64mul (x y : Z) : Z := wrap64 (x * y).
(** Go's [/] truncates toward zero and [%] takes the sign of the dividend;
    [MinInt64 / -1] overflows back to [MinInt64].  Division by zero is a
    run-time panic, handled by the callers. *)
Definition i64quot (x y : Z) : Z := wrap64 (Z.quot x y).
Definition i64rem (x y : Z) : Z := Z.rem x y.

(** [const oneMB = 1 << 20] *)
Definition oneMB : Z := 2^20.

(** ** Segment planner: [divideFileIntoSegments] *)

(** The [for i := 0; i < threadCount; i++] loop; [start] and
    [remainingMB] are the loop-carried variables. *)
Fixpoint segLoop (fileSize segmentSizeMB : Z) (n : nat) (start remainingMB : Z)
    : list (Z * Z) :=
  match n with
  | O => []
  | S n' =>
      let end0 := i64add start (i64mul segmentSizeMB oneMB) in
      let '(end1, rem1) :=
        if 0 <? remainingMB then (i64add end0 oneMB, remainingMB - 1)
        else (end0, remainingMB) in
      let end2 := if fileSize <? end1 then fileSize else end1 in
      (start, end2) :: segLoop fileSize segmentSizeMB n' end2 rem1
  end.

(** [None] is Go's run-time panic "integer divide by zero"
    ([threadCount = 0]). *)
Definition divideFileIntoSegments (fileSize threadCount : Z)
    : option (list (Z * Z)) :=
  let fileSizeMB := i64quot (i64sub (i64add fileSize oneMB) 1) oneMB in
  if threadCount =? 0 then None
  else
    let segmentSizeMB := i64quot fileSizeMB threadCount in
    let remainingMB := i64rem fileSizeMB threadCount in
    Some (segLoop fileSize segmentSizeMB (Z.to_nat threadCount) 0 remainingMB).

(** ** Strings: [fmt.Sprintf("%d")], [strconv.Atoi], [filepath.Base],
    [strings.SplitN(s, "-", 2)] *)

Fixpoint string_of_uint (u : Decimal.uint) : string :=
  match u with
  | Decimal.Nil => ""
  | Decimal.D0 u' => String "0" (string_of_uint u')
  | Decimal.D1 u' => String "1" (string_of_uint u')
  | Decimal.D2 u' => String "2" (string_of_uint u')
  | Decimal.D3 u' => String "3" (string_of_uint u')
  | Decimal.D4 u' => String "4" (string_of_uint u')
  | Decimal.D5 u' => String "5" (string_of_uint u')
  | Decimal.D6 u' => String "6" (string_of_uint u')
  | Decimal.D7 u' => String "7" (string_of_uint u')
  | Decimal.D8 u' => String "8" (string_of_uint u')
  | Decimal.D9 u' => String "9" (string_of_uint u')
  end.

Definition digit_of_char (c : ascii) : option (Decimal.uint -> Decimal.uint) :=
  if decide (c = "0"%char) then Some Decimal.D0 else
  if decide (c = "1"%char) then Some Decimal.D1 else
  if decide (c = "2"%char) then Some Decimal.D2 else
  if decide (c = "3"%char) then Some Decimal.D3 else
  if decide (c = "4"%char) then Some Decimal.D4 else
  if decide (c = "5"%char) then Some Decimal.D5 else
  if decide (c = "6"%char) then Some Decimal.D6 else
  if decide (c = "7"%char) then Some Decimal.D7 else
  if decide (c = "8"%char) then Some Decimal.D8 else
  if decide (c = "9"%char) then Some Decimal.D9 else None.

Fixpoint uint_of_string (s : string) : option Decimal.uint :=
  match s with
  | EmptyString => Some Decimal.Nil
  | String c s' =>
      match digit_of_char c, uint_of_string s' with
      | Some d, Some u => Some (d u)
      | _, _ => None
      end
  end.

(** [fmt.Sprintf("%d", i)] for a Go [int]. *)
Definition itoa (z : Z) : string :=
  match Z.to_int z with
  | Decimal.Pos u => string_of_uint u
  | Decimal.Neg u => String "-" (string_of_uint u)
  end.

(** [strconv.Atoi]: optional sign, at least one decimal digit, the value
    within the 64-bit [int] range; [None] is the returned error. *)
Definition atoi_digits (neg : bool) (s : string) : option Z :=
  match uint_of_string s with
  | None | Some Decimal.Nil => None
  | Some u =>
      let v := if neg then - Z.of_uint u else Z.of_uint u in
      if (-2^63 <=? v) && (v <=? 2^63 - 1) then Some v else None
  end.

Definition atoi (s : string) : option Z :=
  match s with
  | EmptyString => None
  | String c s' =>
      if decide (c = "+"%char) then atoi_digits false s'
      else if decide (c = "-"%char) then atoi_digits true s'
      else atoi_digits false s
  end.

(** [filepath.Base] on a Unix path: [""] gives ["."], trailing slashes are
    dropped, an all-slash path gives ["/"], otherwise the last element. *)
Fixpoint drop_slashes (l : list ascii) : list ascii :=
  match l with
  | c :: l' => if decide (c = "/"%char) then drop_slashes l' else l
  | [] => []
  end.

Fixpoint take_to_slash (l : list ascii) : list ascii :=
  match l with
  | c :: l' => if decide (c = "/"%char) then [] else c :: take_to_slash l'
  | [] => []
  end.

Definition filepath_Base (p : string) : string :=
  match p with
  | EmptyString => "."
  | _ =>
      match drop_slashes (rev (list_ascii_of_string p)) with
      | [] => "/"
      | l => string_of_list_ascii (rev (take_to_slash l))
      end
  end.

(** [strings.SplitN(s, "-", 2)]: the whole string when it has no ["-"],
    otherwise the text before the first ["-"] and the rest. *)
Fixpoint split_dash (s : string) : list string :=
  match s with
  | EmptyString => [EmptyString]
  | String c s' =>
      if decide (c = "-"%char) then [EmptyString; s']
      else
        match split_dash s' with
        | p :: rest => String c p :: rest
        | [] => [String c EmptyString]
        end
  end.

(** ** Process state and the Go effects used by the pipeline *)

(** The working directory as a map from file name to contents, and the
    lines printed on standard output and standard error. *)
Record St := mkSt {
  st_fs : gmap string (list byte);
  st_stdout : list string;
  st_stderr : list string
}.

(** A computation either returns (Go functions return their [error] as a
    value) or panics; a panicking goroutine ends the whole process. *)
Inductive Out (A : Type) :=
| Done (a : A) (s : St)
| Panicked (msg : string) (s : St).
Arguments Done {A} a s.
Arguments Panicked {A} msg s.

Definition M (A : Type) : Type := St -> Out A.

Definition ret {A} (a : A) : M A := fun s => Done a s.
Definition bind {A B} (m : M A) (k : A -> M B) : M B :=
  fun s => match m s with
           | Done a s' => k a s'
           | Panicked msg s' => Panicked msg s'
           end.
Definition go_panic {A} (msg : string) : M A := fun s => Panicked msg s.

Notation "'let*' x := c 'in' k" := (bind c (fun x => k))
  (at level 200, x name, c at level 100, k at level 200).

Definition get_fs : M (gmap string (list byte)) := fun s => Done (st_fs s) s.
Definition put_fs (f : gmap string (list byte)) : M unit :=
  fun s => Done tt (mkSt f (st_stdout s) (st_stderr s)).
(** [os.Create]: create or truncate. *)
Definition create_file (name : string) : M unit :=
  let* f := get_fs in put_fs (<[name := []]> f).
(** A successful [Write] of [data] at the end of an open file. *)
Definition append_file (name : string) (data : list byte) : M unit :=
  let* f := get_fs in
  put_fs (<[name := default [] (f !! name) ++ data]> f).
(** [os.Remove]; its error is ignored by the caller. *)
Definition remove_file (name : string) : M unit :=
  let* f := get_fs in put_fs (delete name f).
Definition println (line : string) : M unit :=
  fun s => Done tt (mkSt (st_fs s) (st_stdout s ++ [line]) (st_stderr s)).
Definition eprintln (line : string) : M unit :=
  fun s => Done tt (mkSt (st_fs s) (st_stdout s) (st_stderr s ++ [line])).

(** Outcome of one [Read] call on an [*os.File]: [n] and the [error]. *)
Inductive rderr := RNone | REOF | RErr (msg : string).

(** What the operating system does on I/O calls that may fail.
    [env_read i X pos] is the [(n, err)] returned by a [Read] of at most
    [oneMB] bytes at offset [pos] on worker [i]'s handle of a file with
    contents [X]; [env_create] and [env_write] give the error message of a
    failing [os.Create] or [Write] on a file name. *)
Record Env := mkEnv {
  env_read : Z -> list byte -> Z -> Z * rderr;
  env_create : string -> option string;
  env_write : string -> option string
}.

(** An [*os.File] on a regular file: a read returns what remains, up to
    the buffer length, and [(0, io.EOF)] at or past the end. *)
Definition regularRead (X : list byte) (pos : Z) : Z * rderr :=
  if Z.of_nat (length X) <=? pos then (0, REOF)
  else (Z.min oneMB (Z.of_nat (length X) - pos), RNone).

(** A fault-free system with regular files. *)
Definition regularEnv : Env :=
  mkEnv (fun _ => regularRead) (fun _ => None) (fun _ => None).

(** A file whose first read at offset 0 returns one byte less than asked
    for, with no error (a short read, which the [io.Reader] contract
    allows); later reads are regular. *)
Definition shortReadEnv : Env :=
  mkEnv (fun _ X pos => if pos =? 0 then (oneMB - 1, RNone) else regularRead X pos)
        (fun _ => None) (fun _ => None).

(** Every read of the worker of segment [k] fails with [msg] (an I/O error
    of the device, say); the other workers read regularly. *)
Definition failReadEnv (k : Z) (msg : string) : Env :=
  mkEnv (fun idx X pos => if idx =? k then (0, RErr msg) else regularRead X pos)
        (fun _ => None) (fun _ => None).

(** ** Worker, reassembler and orchestrator *)

(** [type FileWithIndex struct { Index int; Name string }] *)
Record FileWithIndex := mkFileWithIndex { Index : Z; Name : string }.

Notation "a +++ b" := (String.append a b) (at level 60, right associativity).

(** The part file name of [compressPart]:
    [fmt.Sprintf("%d-%s-output-segment.part%d", segmentIndex,
    filepath.Base(inputFile), segmentIndex)]. *)
Definition partName (segmentIndex : Z) (inputFile : string) : string :=
  itoa segmentIndex +++ "-" +++ filepath_Base inputFile
  +++ "-output-segment.part" +++ itoa segmentIndex.

Definition overReadMsg : string :=
  "[ERROR] I read over the endOffset. That means you pass me index not end in 1MB boundary".
Definition someErrorsMsg : string := "[ERROR] some errors see above".
(** The run-time panic of [make] on a channel with a negative buffer
    size. *)
Definition makechanMsg : string := "makechan: size out of range".

Section Pipeline.

(** The zstd library: [encoder.EncodeAll(src, nil)] for an encoder made
    with [zstd.WithEncoderLevel(zstd.EncoderLevelFromZstd(level))]. *)
Variable encodeAll : Z -> list byte -> list byte.
(** [sort.Slice(filesWithIndex, less)] with [less] comparing [Index]. *)
Variable sortSlice : list FileWithIndex -> list FileWithIndex.
Variable env : Env.

(** The [for] loop of [compressPart], from offset [pos] of the input with
    contents [X] to [endOffset]; [Some e] is a returned error.  The fuel
    given by [compressPart] is never exhausted (lemma [readLoop_fuel]). *)
Fixpoint readLoop (fuel : nat) (level segmentIndex : Z) (X : list byte)
    (outputFile : string) (pos endOffset : Z) : M (option string) :=
  match fuel with
  | O => go_panic "readLoop: out of fuel"
  | S fuel' =>
      let '(n, err) := env_read env segmentIndex X pos in
      match err with
      | RErr m => ret (Some ("failed to read input: " +++ m))
      | _ =>
          if n =? 0 then ret None
          else if (n <? 0) || (oneMB <? n)
          then go_panic "runtime error: slice bounds out of range"
          else
            let compressed :=
              encodeAll level (firstn (Z.to_nat n) (skipn (Z.to_nat pos) X)) in
            match env_write env outputFile with
            | Some m => ret (Some ("failed to write output: " +++ m))
            | None =>
                let* _ := append_file outputFile compressed in
                (* input.Seek(0, io.SeekCurrent) on a regular file *)
                let currentOffset := pos + n in
                if currentOffset =? endOffset then ret None
                else if endOffset <? currentOffset then go_panic overReadMsg
                else readLoop fuel' level segmentIndex X outputFile
                       currentOffset endOffset
            end
      end
  end.

(** [compressPart(inputFile, segmentIndex, offset, compressionLevel)]
    returning [(outputFile, err1)]. *)
Definition compressPart (inputFile : string) (segmentIndex : Z)
    (offset : Z * Z) (compressionLevel : Z) : M (string * option string) :=
  let* f := get_fs in
  match f !! inputFile with
  | None =>
      ret ("", Some ("failed to create openfile: open " +++ inputFile
                     +++ ": no such file or directory"))
  | Some X =>
      let outputFile := partName segmentIndex inputFile in
      match env_create env outputFile with
      | Some m => ret ("", Some ("failed to create output file: " +++ m))
      | None =>
          let* _ := create_file outputFile in
          (* zstd.NewWriter with a level option does not fail *)
          let '(startOffset, endOffset) := offset in
          (* input.Seek(startOffset, 0): a negative offset is refused and
             the position stays 0; the error is not checked *)
          let pos := if startOffset <? 0 then 0 else startOffset in
          let* r := readLoop (S (Z.to_nat (endOffset - pos))) compressionLevel
                      segmentIndex X outputFile pos endOffset in
          match r with
          | None => ret (outputFile, None)
          | Some e => ret ("", Some e)
          end
      end
  end.

(** The first loop of [concatenateFiles]: parse the index of each name. *)
Fixpoint parseNames (filenames : list string)
    : option string * list FileWithIndex :=
  match filenames with
  | [] => (None, [])
  | filename :: rest =>
      match split_dash (filepath_Base filename) with
      | p0 :: _ :: _ =>
          match atoi p0 with
          | None => (Some ("invalid index in filename: " +++ filename), [])
          | Some index =>
              let '(e, l) := parseNames rest in
              (e, mkFileWithIndex index filename :: l)
          end
      | _ => (Some ("invalid filename pattern: " +++ filename), [])
      end
  end.

(** The copy loop of [concatenateFiles]. *)
Fixpoint copyAll (outputFile : string) (files : list FileWithIndex)
    : M (option string) :=
  match files with
  | [] => ret None
  | file :: rest =>
      let* f := get_fs in
      match f !! Name file with
      | None =>
          ret (Some ("failed to open input file " +++ Name file +++ ": open "
                     +++ Name file +++ ": no such file or directory"))
      | Some c =>
          (* io.Copy writes only when there is something to copy *)
          match c, env_write env outputFile with
          | _ :: _, Some m => ret (Some ("failed to write to output file: " +++ m))
          | _, _ =>
              let* _ := append_file outputFile c in
              copyAll outputFile rest
          end
      end
  end.

Fixpoint removeAll (files : list FileWithIndex) : M unit :=
  match files with
  | [] => ret tt
  | file :: rest => let* _ := remove_file (Name file) in removeAll rest
  end.

(** [concatenateFiles(filenames, outputFile)]. *)
Definition concatenateFiles (filenames : list string) (outputFile : string)
    : M (option string) :=
  match parseNames filenames with
  | (Some e, _) => ret (Some e)
  | (None, filesWithIndex) =>
      let sorted := sortSlice filesWithIndex in
      match env_create env outputFile with
      | Some m => ret (Some ("failed to create output file: " +++ m))
      | None =>
          let* _ := create_file outputFile in
          let* r := copyAll outputFile sorted in
          match r with
          | Some e => ret (Some e)
          | None => let* _ := removeAll sorted in ret None
          end
      end
  end.

(** The [numThreads] goroutines of [compressFileBlock].  [order] is the
    order in which they run: the workers share no file they write (each
    writes its own part file and only reads the input), so every
    interleaving has the effect of running them one after the other in
    their completion order, which is also the order of their messages on
    [outputFileName] and [errChan].  A worker sends [outfile] or, on
    error, [""] (which is what [compressPart] returns as name then). *)
Fixpoint runWorkers (inputFile : string) (compressionLevel : Z)
    (offset : list (Z * Z)) (order : list Z)
    : M (list (string * option string)) :=
  match order with
  | [] => ret []
  | i :: rest =>
      match (if i <? 0 then None else nth_error offset (Z.to_nat i)) with
      | None => go_panic "runtime error: index out of range"
      | Some seg =>
          let* r := compressPart inputFile i seg compressionLevel in
          let* rs := runWorkers inputFile compressionLevel offset rest in
          ret (r :: rs)
      end
  end.

Definition errorsOf (rs : list (string * option string)) : list string :=
  omap snd rs.

(** [compressFileBlock(inputFile, outputFile, compressionLevel,
    numThreads)], the goroutines completing in [order].  A negative
    [numThreads] makes [make] panic before any goroutine starts. *)
Definition compressFileBlock (inputFile outputFile : string)
    (compressionLevel numThreads : Z) (order : list Z) : M (option string) :=
  let* f := get_fs in
  (* calculateSegment: os.Stat, then divideFileIntoSegments *)
  match f !! inputFile with
  | None => ret (Some ("stat " +++ inputFile +++ ": no such file or directory"))
  | Some X =>
      match divideFileIntoSegments (Z.of_nat (length X)) numThreads with
      | None => go_panic "runtime error: integer divide by zero"
      | Some offset =>
          (* make(chan string, numThreads) and make(chan error, numThreads) *)
          if numThreads <? 0 then go_panic makechanMsg
          else
          let* _ := eprintln "Working, please wait ..." in
          let* results := runWorkers inputFile compressionLevel offset order in
          let outputFiles := map fst results in
          match errorsOf results with
          | err :: _ =>
              let* _ := println err in
              go_panic someErrorsMsg
          | [] =>
              (* the error of concatenateFiles is dropped *)
              let* _ := concatenateFiles outputFiles outputFile in
              ret None
          end
      end
  end.

End Pipeline.

(** [decompressFile(input, output)]: the zstd stream decoder over the whole
    input; [None] is a decoding error. *)
Definition decompressFile (decodeAll : list byte -> option (list byte))
    (input : list byte) : option (list byte) :=
  decodeAll input.

(** ** The planner below the overflow bound *)

(** The largest [fileSize] for which [fileSize + oneMB - 1] does not
    overflow [int64]. *)
Definition maxSafeSize : Z := 2^63 - oneMB.

(** Integer form of the plan: [U] MiB units, [seg] units per worker and one
    more for the first [rem] workers; [cumOf i] is the byte offset reached
    after [i] workers before clamping to [fileSize]. *)
Definition unitsOf (fileSize : Z) : Z := (fileSize + oneMB - 1) / oneMB.
Definition cumOf (seg rem i : Z) : Z := (i * seg + Z.min i rem) * oneMB.
Definition idealSeg (fileSize seg rem : Z) (i : nat) : Z * Z :=
  (Z.min (cumOf seg rem (Z.of_nat i)) fileSize,
   Z.min (cumOf seg rem (Z.of_nat (S i))) fileSize).
Definition idealPlan (fileSize threadCount : Z) : list (Z * Z) :=
  let U := unitsOf fileSize in
  map (idealSeg fileSize (U / threadCount) (U mod threadCount))
      (seq 0 (Z.to_nat threadCount)).

(** The order [sort.Slice] is asked to sort by. *)
Definition index_le (a b : FileWithIndex) : Prop := Index a <= Index b.
#[export] Instance index_le_dec : RelDecision index_le :=
  fun a b => Z.le_dec (Index a) (Index b).

(** The segment indices [0 .. n-1] of a plan with [n] workers. *)
Definition zseq (n : Z) : list Z := map Z.of_nat (seq 0 (Z.to_nat n)).

(** Deleting a list of names. *)
Fixpoint deleteAll (names : list string) (m : gmap string (list byte)) :=
  match names with
  | [] => m
  | n :: ns => deleteAll ns (delete n m)
  end.

(** ** The rest of [main.go]: [divmod], the stream paths and [main] *)

(** [divmod(numerator, denominator)] on [int64]; [None] is the run-time
    panic "integer divide by zero". *)
Definition divmod (numerator denominator : Z) : option (Z * Z) :=
  if denominator =? 0 then None
  else Some (i64quot numerator denominator, i64rem numerator denominator).

(** The values of the flags after [flag.Parse]: [-d], [-c], [-o], [-l],
    [-T], [-b]. *)
Record Flags := mkFlags {
  fl_d : bool;
  fl_c : bool;
  fl_o : string;
  fl_l : Z;
  fl_T : Z;
  fl_b : bool
}.

(** The defaults [main] declares for them. *)
Definition defaultFlags : Flags := mkFlags false false "" 3 2 false.

(** [os.Stdin] and [os.Stdout] as the files of the working directory map
    they are on Linux; printed messages are kept apart in [st_stdout]. *)
Definition stdinName : string := "/dev/stdin".
Definition stdoutName : string := "/dev/stdout".

Definition blockModeMsg : string :=
  "[ERROR] Block mode does not support non seekable stream like stdin or stdout. Require option inputfile and -o <outputfile> to work".

(** A fault-free system except that [os.Create(name)] fails with [msg]. *)
Definition createFailEnv (name msg : string) : Env :=
  mkEnv (fun _ => regularRead)
        (fun n => if String.eqb n name then Some msg else None)
        (fun _ => None).

Section Main.
Variable encodeAll : Z -> list byte -> list byte.
Variable sortSlice : list FileWithIndex -> list FileWithIndex.
Variable env : Env.
(** The completion order of the block-mode goroutines. *)
Variable order : list Z.
(** The zstd streaming library: [zstdEncode level X] is everything an
    encoder made by [zstd.NewWriter(output, WithEncoderLevel(...))] writes
    to [output] when [X] is copied into it and it is closed;
    [zstdDecode X] is what [io.Copy] gets from [zstd.NewReader] on the
    input [X] before it stops, and the error it stops with. *)
Variable zstdEncode : Z -> list byte -> list byte.
(** The block size of the encoder at a level: the encoder buffers its
    input and makes its first [Write] to [output] (the frame header, made
    synchronously, whose error [ReadFrom]/[Write] return) during [io.Copy]
    once it has gathered a whole block; a shorter stream is written only by
    [Close]. *)
Variable zstdBlockSize : Z -> positive.
Variable zstdDecode : list byte -> list byte * option string.

(** [compressStream(input, output, compressionLevel)] for reads that do
    not fail: [zstd.NewWriter] with a level option returns no error and
    [io.Copy] gives the encoder the whole of [input] as it is when it is
    read.  When the writes to [output] succeed, the encoder and its
    deferred [Close] write the whole stream.  When they fail, nothing is
    written; [io.Copy] returns the error of the encoder's first write if
    the input holds a whole block, and otherwise only the deferred
    [encoder.Close] writes, and its error is dropped. *)
Definition compressStream (input output : string) (compressionLevel : Z)
    : M (option string) :=
  let* f := get_fs in
  let X := default [] (f !! input) in
  match env_write env output with
  | None =>
      let* _ := append_file output (zstdEncode compressionLevel X) in
      ret None
  | Some m =>
      if Zpos (zstdBlockSize compressionLevel) <=? Z.of_nat (length X)
      then ret (Some ("failed to compress data: " +++ m))
      else ret None
  end.

(** [decompressFile(input, output)] with its writes to [output]:
    [zstd.NewReader] with no option returns no error, and [io.Copy] writes
    what the decoder delivers.  When the writes to [output] fail, the first
    of them fails before the decoder could stop with an error, and nothing
    is written. *)
Definition decompressFile_io (input output : string) : M (option string) :=
  let* f := get_fs in
  let '(Y, err) := zstdDecode (default [] (f !! input)) in
  match env_write env output, Y with
  | Some m, _ :: _ => ret (Some ("failed to decompress data: " +++ m))
  | _, _ =>
      let* _ := append_file output Y in
      match err with
      | None => ret None
      | Some m => ret (Some ("failed to decompress data: " +++ m))
      end
  end.

(** The output of [main]: [os.Stdout], unless [-c] is off and [-o] names a
    file, which is then created (or truncated); [inr] is the error of
    [os.Create]. *)
Definition openOutput (fl : Flags) : M (string + string) :=
  if negb (fl_c fl) && negb (String.eqb (fl_o fl) "") then
    match env_create env (fl_o fl) with
    | Some m => ret (inr m)
    | None => let* _ := create_file (fl_o fl) in ret (inl (fl_o fl))
    end
  else ret (inl stdoutName).

(** [main()] after [flag.Parse()], for the flag values [fl] and the
    arguments [args] ([flag.Args()]); the result is the exit status
    ([0] when [main] returns, [1] from [os.Exit(1)]). *)
Definition main (fl : Flags) (args : list string) : M Z :=
  let* f := get_fs in
  let opened :=
    match args with
    | [] => inl stdinName
    | a :: _ =>
        match f !! a with
        | Some _ => inl a
        | None => inr ("open " +++ a +++ ": no such file or directory")
        end
    end in
  match opened with
  | inr err => let* _ := println ("Failed to open input file: " +++ err) in ret 1
  | inl input =>
      let* created := openOutput fl in
      match created with
      | inr err => let* _ := println ("Failed to create output file: " +++ err) in ret 1
      | inl output =>
          if fl_d fl then
            let* r := decompressFile_io input output in
            match r with
            | Some e => let* _ := println ("Decompression failed: " +++ e) in ret 1
            | None => ret 0
            end
          else if fl_b fl then
            if (Z.of_nat (length args) <? 0) || String.eqb (fl_o fl) "" then
              go_panic blockModeMsg
            else
              (* flag.Arg(0) is "" when there is no argument *)
              let inputFile := match args with [] => "" | a :: _ => a end in
              let* r := compressFileBlock encodeAll sortSlice env inputFile (fl_o fl)
                          (fl_l fl) (fl_T fl) order in
              match r with
              | Some e => let* _ := println ("Block mode compression failed: " +++ e) in ret 1
              | None => ret 0
              end
          else
            let* r := compressStream input output (fl_l fl) in
            match r with
            | Some e => let* _ := println ("Stream mode compression failed: " +++ e) in ret 1
            | None => ret 0
            end
      end
  end.

End Main.

(** ** Sanity checks of the embedding *)

Example plan_3MiB :
  divideFileIntoSegments (3 * oneMB) 3
  = Some [(0, oneMB); (oneMB, 2 * oneMB); (2 * oneMB, 3 * oneMB)].
Proof. vm_compute. reflexivity. Qed.

Example itoa_atoi_12 : atoi (itoa 12) = Some 12.
Proof. reflexivity. Qed.
Example base_example : filepath_Base "/data/in-put.tar//" = "in-put.tar".
Proof. reflexivity. Qed.
Example split_example : split_dash "3-a-b" = ["3"; "a-b"].
Proof. reflexivity. Qed.

(** ** Planner lemmas *)

Lemma wrap64_id z : -2^63 <= z < 2^63 -> wrap64 z = z.
Proof.
  intros Hz. unfold wrap64. rewrite Z.mod_small; lia.
Qed.

Lemma wrap64_add_wrap x y : wrap64 (wrap64 x + y) = wrap64 (x + y).
Proof.
  unfold wrap64.
  replace ((x + 2 ^ 63) mod 2 ^ 64 - 2 ^ 63 + y + 2 ^ 63)
    with ((x + 2 ^ 63) mod 2 ^ 64 + y) by lia.
  rewrite Zplus_mod_idemp_l. f_equal. f_equal. lia.
Qed.

Lemma wrap64_sub_wrap x y : wrap64 (wrap64 x - y) = wrap64 (x - y).
Proof.
  replace (wrap64 x - y) with (wrap64 x + - y) by lia.
  rewrite wrap64_add_wrap. reflexivity.
Qed.

Lemma oneMB_pos : 0 < oneMB.
Proof. unfold oneMB. lia. Qed.

Lemma cumOf_succ seg rem k :
  cumOf seg rem (k + 1)
  = cumOf seg rem k + seg * oneMB + (if k <? rem then oneMB else 0).
Proof.
  unfold cumOf. destruct (Z.ltb_spec k rem).
  - rewrite !Z.min_l by lia. ring.
  - rewrite !Z.min_r by lia. ring.
Qed.

Lemma cumOf_mono seg rem i j :
  0 <= seg -> 0 <= i <= j -> cumOf seg rem i <= cumOf seg rem j.
Proof.
  intros Hs Hij. unfold cumOf. pose proof oneMB_pos.
  apply Z.mul_le_mono_nonneg_r; [lia|].
  assert (i * seg <= j * seg) by nia. lia.
Qed.

Lemma cumOf_zero seg rem : 0 <= rem -> cumOf seg rem 0 = 0.
Proof. intros. unfold cumOf. rewrite Z.min_l by lia. ring. Qed.

Lemma cumOf_nonneg seg rem i :
  0 <= seg -> 0 <= rem -> 0 <= i -> 0 <= cumOf seg rem i.
Proof.
  intros. rewrite <- (cumOf_zero seg rem) by lia. apply cumOf_mono; lia.
Qed.

Section PlanLoop.
Variables (fileSize seg rem T : Z).
Hypothesis Hfs : 0 <= fileSize.
Hypothesis Hseg : 0 <= seg.
Hypothesis Hrem : 0 <= rem < T.
Hypothesis Hbound : (T * seg + rem) * oneMB <= 2^63 - 1.

Lemma cumOf_le_total i : 0 <= i <= T -> cumOf seg rem i <= (T * seg + rem) * oneMB.
Proof.
  intros Hi. transitivity (cumOf seg rem T).
  - apply cumOf_mono; lia.
  - unfold cumOf. rewrite Z.min_r by lia. lia.
Qed.

Lemma segLoop_ideal (n k : nat) :
  Z.of_nat (k + n) = T ->
  segLoop fileSize seg n (Z.min (cumOf seg rem (Z.of_nat k)) fileSize)
          (Z.max 0 (rem - Z.of_nat k))
  = map (idealSeg fileSize seg rem) (seq k n).
Proof.
  revert k. induction n as [|n IH]; intros k Hk; [reflexivity|].
  cbn [segLoop seq map].
  pose proof oneMB_pos as HM.
  pose proof (cumOf_succ seg rem (Z.of_nat k)) as Hsucc.
  pose proof (cumOf_le_total (Z.of_nat k + 1)) as Htot.
  pose proof (cumOf_nonneg seg rem (Z.of_nat k)) as Hnn.
  assert (Hsm : 0 <= seg * oneMB) by nia.
  unfold i64mul, i64add.
  rewrite (wrap64_id (seg * oneMB)).
  2:{ assert (seg * oneMB <= (T * seg + rem) * oneMB) by nia. lia. }
  set (c := cumOf seg rem (Z.of_nat k)) in *.
  rewrite (wrap64_id (Z.min c fileSize + seg * oneMB)).
  2:{ destruct (Z.ltb_spec (Z.of_nat k) rem); lia. }
  unfold idealSeg.
  replace (Z.of_nat (S k)) with (Z.of_nat k + 1) by lia.
  set (c1 := cumOf seg rem (Z.of_nat k + 1)) in *.
  destruct (Z.ltb_spec 0 (Z.max 0 (rem - Z.of_nat k))) as [Hlt|Hge].
  - rewrite wrap64_id by (destruct (Z.ltb_spec (Z.of_nat k) rem); lia).
    assert (Hkr : Z.of_nat k < rem) by lia.
    replace (Z.of_nat k <? rem) with true in Hsucc
      by (symmetry; apply Z.ltb_lt; lia).
    assert (Hend : (if fileSize <? Z.min c fileSize + seg * oneMB + oneMB
                    then fileSize else Z.min c fileSize + seg * oneMB + oneMB)
                   = Z.min c1 fileSize)
      by (destruct (Z.ltb_spec fileSize (Z.min c fileSize + seg * oneMB + oneMB)); lia).
    rewrite Hend. f_equal.
    replace (Z.max 0 (rem - Z.of_nat k) - 1) with (Z.max 0 (rem - Z.of_nat (S k))) by lia.
    replace c1 with (cumOf seg rem (Z.of_nat (S k))) by (unfold c1; f_equal; lia).
    apply IH. lia.
  - assert (Hkr : rem <= Z.of_nat k) by lia.
    replace (Z.of_nat k <? rem) with false in Hsucc
      by (symmetry; apply Z.ltb_ge; lia).
    assert (Hend : (if fileSize <? Z.min c fileSize + seg * oneMB
                    then fileSize else Z.min c fileSize + seg * oneMB)
                   = Z.min c1 fileSize)
      by (destruct (Z.ltb_spec fileSize (Z.min c fileSize + seg * oneMB)); lia).
    rewrite Hend. f_equal.
    replace (Z.max 0 (rem - Z.of_nat k)) with (Z.max 0 (rem - Z.of_nat (S k))) by lia.
    replace c1 with (cumOf seg rem (Z.of_nat (S k))) by (unfold c1; f_equal; lia).
    apply IH. lia.
Qed.

End PlanLoop.

Lemma units_bounds fs :
  0 <= fs -> fs <= unitsOf fs * oneMB <= fs + oneMB - 1.
Proof.
  intros Hfs. unfold unitsOf. pose proof oneMB_pos.
  pose proof (Z.div_mod (fs + oneMB - 1) oneMB ltac:(lia)).
  pose proof (Z.mod_pos_bound (fs + oneMB - 1) oneMB ltac:(lia)). lia.
Qed.

(** Below [maxSafeSize] no [int64] operation of the planner overflows and
    the plan is [idealPlan]. *)
Lemma plan_safe fs T :
  0 <= fs <= maxSafeSize -> 1 <= T ->
  divideFileIntoSegments fs T = Some (idealPlan fs T).
Proof.
  intros Hfs HT. unfold divideFileIntoSegments, idealPlan.
  pose proof oneMB_pos as HM. pose proof (units_bounds fs ltac:(lia)) as HU.
  unfold maxSafeSize in Hfs.
  unfold i64sub, i64add. rewrite wrap64_sub_wrap.
  rewrite (wrap64_id (fs + oneMB - 1)) by (unfold oneMB in *; lia).
  unfold i64quot.
  rewrite (Z.quot_div_nonneg (fs + oneMB - 1) oneMB) by (unfold oneMB in *; lia).
  fold (unitsOf fs).
  assert (HU0 : 0 <= unitsOf fs) by nia.
  rewrite (wrap64_id (unitsOf fs)) by (unfold oneMB in *; nia).
  replace (T =? 0) with false by (symmetry; apply Z.eqb_neq; lia).
  rewrite Z.quot_div_nonneg by lia.
  unfold i64rem. rewrite Z.rem_mod_nonneg by lia.
  pose proof (Z.div_mod (unitsOf fs) T ltac:(lia)) as Hdm.
  pose proof (Z.mod_pos_bound (unitsOf fs) T ltac:(lia)) as Hmb.
  assert (Hq : 0 <= unitsOf fs / T) by (apply Z.div_pos; lia).
  rewrite (wrap64_id (unitsOf fs / T)).
  2:{ assert (unitsOf fs / T <= unitsOf fs) by (apply Z.div_le_upper_bound; nia).
      unfold oneMB in *; nia. }
  f_equal.
  pose proof (segLoop_ideal fs (unitsOf fs / T) (unitsOf fs mod T) T
                ltac:(lia) Hq Hmb) as L.
  rewrite <- L.
  - rewrite cumOf_zero by lia. rewrite Z.min_l by lia.
    f_equal. lia.
  - rewrite <- Hdm. unfold oneMB in *; lia.
  - lia.
Qed.

(** ** The worker's read loop on a regular file *)

Lemma firstn_plus {A} (a b : nat) (l : list A) :
  firstn (a + b) l = firstn a l ++ firstn b (skipn a l).
Proof.
  revert l. induction a as [|a IH]; intros l; [reflexivity|].
  destruct l; cbn; [destruct b; reflexivity|]. rewrite IH. reflexivity.
Qed.

Lemma st_eta (st : St) : st = mkSt (st_fs st) (st_stdout st) (st_stderr st).
Proof. destruct st; reflexivity. Qed.

Section RegularWorker.
Variables (encodeAll : Z -> list byte -> list byte) (env : Env).
Variables (level idx : Z) (X : list byte) (out : string).
Hypothesis Hread : forall p, env_read env idx X p = regularRead X p.
Hypothesis Hwrite : env_write env out = None.

(** From [pos], reads of at most 1 MiB proceed to [min endOffset L]
    ([L] the file length) without passing [endOffset], provided the
    distance to [endOffset] is a whole number of MiB or the file ends
    first; the frames of the chunks read are appended to [out]. *)
Lemma readLoop_regular (fuel : nat) (pos e : Z) (st : St) (old : list byte) :
  let L := Z.of_nat (length X) in
  0 <= pos <= Z.min e L ->
  (L <= e \/ (pos < e /\ (e - pos) mod oneMB = 0)) ->
  (Z.to_nat (e - pos) < fuel)%nat ->
  st_fs st !! out = Some old ->
  exists cs : list (list byte),
    concat cs = firstn (Z.to_nat (Z.min e L - pos)) (skipn (Z.to_nat pos) X) /\
    Forall (fun c => c <> []) cs /\
    readLoop encodeAll env fuel level idx X out pos e st
    = Done None (mkSt (<[out := old ++ concat (map (encodeAll level) cs)]> (st_fs st))
                      (st_stdout st) (st_stderr st)).
Proof.
  intros L. revert pos st old.
  induction fuel as [|fuel IH]; intros pos st old Hpos Hal Hfuel Hold; [lia|].
  pose proof oneMB_pos as HM.
  cbn [readLoop]. rewrite Hread. unfold regularRead. fold L.
  destruct (Z.leb_spec L pos) as [Hend|Hlt].
  - (* end of file: (0, io.EOF) *)
    exists []. split; [|split; [constructor|]].
    + replace (Z.to_nat (Z.min e L - pos)) with 0%nat by lia. reflexivity.
    + cbn. rewrite app_nil_r, insert_id by exact Hold. unfold ret. rewrite <- st_eta. reflexivity.
  - set (n := Z.min oneMB (L - pos)).
    assert (Hn : 0 < n <= oneMB) by (unfold n; lia).
    replace (n =? 0) with false by (symmetry; apply Z.eqb_neq; lia).
    replace ((n <? 0) || (oneMB <? n)) with false
      by (symmetry; apply orb_false_iff; split; apply Z.ltb_ge; lia).
    rewrite Hwrite.
    set (chunk := firstn (Z.to_nat n) (skipn (Z.to_nat pos) X)).
    assert (Hchunk : chunk <> []).
    { unfold chunk. intros Hc. apply (f_equal (@length byte)) in Hc.
      rewrite length_firstn, length_skipn in Hc. cbn in Hc. lia. }
    unfold bind at 1, append_file, bind, get_fs, put_fs. cbn -[Z.add].
    rewrite Hold. cbn [default].
    destruct (Z.eqb_spec (pos + n) e) as [Heq|Hne].
    + exists [chunk]. split; [|split; [repeat constructor; exact Hchunk|]].
      * cbn. rewrite app_nil_r. unfold chunk. f_equal. lia.
      * cbn. rewrite app_nil_r. reflexivity.
    + destruct (Z.ltb_spec e (pos + n)) as [Hover|Hin].
      * exfalso. destruct Hal as [HLe|[Hpe Hmod]]; [lia|].
        assert (oneMB <= e - pos).
        { destruct (Z.le_gt_cases oneMB (e - pos)) as [|Hsmall]; [lia|].
          rewrite Z.mod_small in Hmod by lia. lia. }
        lia.
      * assert (Hnext : L <= e \/ (pos + n < e /\ (e - (pos + n)) mod oneMB = 0)).
        { destruct Hal as [HLe|[Hpe Hmod]]; [left; lia|].
          destruct (Z.le_gt_cases L e) as [|HeL]; [left; lia|right].
          assert (oneMB <= e - pos).
          { destruct (Z.le_gt_cases oneMB (e - pos)) as [|Hsmall]; [lia|].
            rewrite Z.mod_small in Hmod by lia. lia. }
          assert (n = oneMB) by (unfold n; lia).
          split; [lia|].
          replace (e - (pos + n)) with ((e - pos) + (-1) * oneMB) by lia.
          rewrite Z_mod_plus_full. exact Hmod. }
        edestruct (IH (pos + n)
                     (mkSt (<[out:=old ++ encodeAll level chunk]> (st_fs st))
                           (st_stdout st) (st_stderr st))
                     (old ++ encodeAll level chunk)) as (cs & Hcat & Hne' & Hrun).
        { lia. }
        { exact Hnext. }
        { lia. }
        { cbn. apply lookup_insert_eq. }
        exists (chunk :: cs). split; [|split; [constructor; assumption|]].
        -- cbn. rewrite Hcat. unfold chunk.
           replace (Z.to_nat (Z.min e L - pos))
             with (Z.to_nat n + Z.to_nat (Z.min e L - (pos + n)))%nat by lia.
           rewrite firstn_plus, skipn_skipn. do 3 f_equal. lia.
        -- unfold id. rewrite Hrun. cbn. rewrite insert_insert_eq, app_assoc. reflexivity.
Qed.

End RegularWorker.

(** The fuel [compressPart] gives [readLoop] is never exhausted: a reading
    iteration that continues advances by at least one byte and stays below
    [endOffset], so any fuel above [endOffset - pos] gives the same run. *)
Lemma readLoop_fuel encodeAll env (f1 f2 : nat) level idx X out pos e st :
  (Z.to_nat (e - pos) < f1)%nat -> (Z.to_nat (e - pos) < f2)%nat ->
  readLoop encodeAll env f1 level idx X out pos e st
  = readLoop encodeAll env f2 level idx X out pos e st.
Proof.
  revert f2 pos st. induction f1 as [|f1 IH]; intros f2 pos st H1 H2; [lia|].
  destruct f2 as [|f2]; [lia|]. cbn [readLoop].
  destruct (env_read env idx X pos) as [n err].
  destruct err as [| |m]; try reflexivity;
  destruct (Z.eqb_spec n 0); try reflexivity;
  destruct ((n <? 0) || (oneMB <? n)) eqn:Hb; try reflexivity;
  destruct (env_write env out); try reflexivity;
  apply orb_false_iff in Hb; destruct Hb as [Hb1 Hb2];
  apply Z.ltb_ge in Hb1;
  unfold bind; destruct (append_file out _ st) as [u st'|msg st']; try reflexivity;
  destruct (Z.eqb_spec (pos + n) e); try reflexivity;
  destruct (Z.ltb_spec e (pos + n)); try reflexivity;
  apply IH; lia.
Qed.

(** ** Properties of the plan below the overflow bound *)

Section IdealPlan.
Variables (fs T : Z).
Hypothesis Hfs : 0 <= fs.
Hypothesis HT : 1 <= T.

Let U := unitsOf fs.
Let seg := U / T.
Let rem := U mod T.

Lemma ideal_facts :
  0 <= seg /\ 0 <= rem < T /\ T * seg + rem = U /\ fs <= U * oneMB.
Proof.
  pose proof (units_bounds fs Hfs). pose proof oneMB_pos.
  assert (0 <= U) by (unfold U; nia).
  split; [apply Z.div_pos; lia|].
  split; [apply Z.mod_pos_bound; lia|].
  split; [unfold seg, rem; rewrite <- Z.div_mod by lia; reflexivity|].
  unfold U; lia.
Qed.

Lemma ideal_cum_total : cumOf seg rem T = U * oneMB.
Proof.
  destruct ideal_facts as (Hs & Hr & Hdm & _).
  unfold cumOf. rewrite Z.min_r by lia. rewrite <- Hdm. ring_simplify. lia.
Qed.

Lemma idealPlan_length : length (idealPlan fs T) = Z.to_nat T.
Proof. unfold idealPlan. rewrite length_map, length_seq. reflexivity. Qed.

Lemma idealPlan_lookup (i : nat) :
  (i < Z.to_nat T)%nat ->
  nth_error (idealPlan fs T) i = Some (idealSeg fs seg rem i).
Proof.
  intros Hi. unfold idealPlan. fold U. fold seg. fold rem.
  rewrite nth_error_map, nth_error_seq.
  destruct (Nat.ltb_spec i (Z.to_nat T)); [|lia]. reflexivity.
Qed.

Lemma idealSeg_bounds (i : nat) :
  (i < Z.to_nat T)%nat ->
  let '(s, e) := idealSeg fs seg rem i in 0 <= s <= e /\ e <= fs.
Proof.
  intros Hi. destruct ideal_facts as (Hs & Hr & _ & _).
  unfold idealSeg.
  pose proof (cumOf_nonneg seg rem (Z.of_nat i) Hs ltac:(lia) ltac:(lia)).
  pose proof (cumOf_mono seg rem (Z.of_nat i) (Z.of_nat (S i)) Hs ltac:(lia)).
  lia.
Qed.

(** A planner segment is read to its end by whole MiB steps or ends at the
    end of the file. *)
Lemma idealSeg_aligned (i : nat) :
  (i < Z.to_nat T)%nat ->
  let '(s, e) := idealSeg fs seg rem i in
  e = fs \/ (s < e /\ (e - s) mod oneMB = 0).
Proof.
  intros Hi. destruct ideal_facts as (Hs & Hr & Hdm & HfU).
  pose proof oneMB_pos as HM.
  unfold idealSeg.
  replace (Z.of_nat (S i)) with (Z.of_nat i + 1) by lia.
  pose proof (cumOf_succ seg rem (Z.of_nat i)) as Hsucc.
  pose proof (cumOf_mono seg rem (Z.of_nat i) (Z.of_nat i + 1) Hs ltac:(lia)).
  destruct (Z.le_gt_cases fs (cumOf seg rem (Z.of_nat i + 1))) as [Hge|Hlt].
  - left. lia.
  - right. rewrite !Z.min_l by lia.
    assert (Hshare : 1 <= seg + (if Z.of_nat i <? rem then 1 else 0)).
    { destruct (Z.ltb_spec (Z.of_nat i) rem); [lia|].
      destruct (Z.eq_dec seg 0) as [Hz|]; [|lia].
      exfalso. unfold cumOf in Hlt. rewrite Hz in Hlt, Hdm.
      rewrite Z.min_r in Hlt by lia. lia. }
    assert (Hd : cumOf seg rem (Z.of_nat i + 1) - cumOf seg rem (Z.of_nat i)
                 = (seg + (if Z.of_nat i <? rem then 1 else 0)) * oneMB)
      by (rewrite Hsucc; destruct (Z.of_nat i <? rem); ring).
    split; [nia|]. rewrite Hd. apply Z_mod_mult.
Qed.

Lemma idealSeg_end_multiple (i : nat) :
  let '(_, e) := idealSeg fs seg rem i in e mod oneMB = 0 \/ e = fs.
Proof.
  unfold idealSeg.
  destruct (Z.le_gt_cases fs (cumOf seg rem (Z.of_nat (S i)))).
  - right. lia.
  - left. rewrite Z.min_l by lia. unfold cumOf. apply Z_mod_mult.
Qed.

End IdealPlan.

(** ** Part file names parse back to their index *)

Lemma uint_of_string_of_uint u : uint_of_string (string_of_uint u) = Some u.
Proof. induction u; cbn; try rewrite IHu; reflexivity. Qed.

Lemma split_dash_cons c s :
  c <> "-"%char ->
  split_dash (String c s)
  = match split_dash s with
    | p :: rest => String c p :: rest
    | [] => [String c EmptyString]
    end.
Proof. intros Hc. cbn. destruct (decide (c = "-"%char)); [contradiction|reflexivity]. Qed.

Lemma append_String c s t : String c s +++ t = String c (s +++ t).
Proof. reflexivity. Qed.

Lemma string_of_uint_no_dash u rest :
  split_dash (string_of_uint u +++ String "-" rest) = [string_of_uint u; rest].
Proof.
  induction u; cbn [string_of_uint]; try reflexivity;
    rewrite append_String, split_dash_cons by discriminate; rewrite IHu; reflexivity.
Qed.

Lemma itoa_nonneg i :
  0 <= i -> exists u, Z.to_int i = Decimal.Pos u /\ itoa i = string_of_uint u
                      /\ u <> Decimal.Nil.
Proof.
  intros Hi. unfold itoa. destruct i as [|p|p]; cbn; [|eexists; split; [reflexivity|] |lia].
  - eexists; split; [reflexivity|]. split; [reflexivity|]. discriminate.
  - split; [reflexivity|]. intros Hn.
    pose proof (DecimalZ.of_to (Z.pos p)) as E. cbn in E. rewrite Hn in E.
    discriminate E.
Qed.

Lemma atoi_itoa i : 0 <= i <= 2^63 - 1 -> atoi (itoa i) = Some i.
Proof.
  intros Hi. destruct (itoa_nonneg i ltac:(lia)) as (u & Hu & Hs & Hnil).
  rewrite Hs.
  assert (Hv : Z.of_uint u = i).
  { pose proof (DecimalZ.of_to i) as E. rewrite Hu in E. exact E. }
  assert (Hdig : atoi_digits false (string_of_uint u) = Some i).
  { unfold atoi_digits. rewrite uint_of_string_of_uint.
    destruct u; try contradiction; cbn [negb];
    rewrite Hv; replace ((-2^63 <=? i) && (i <=? 2^63 - 1)) with true
      by (symmetry; apply andb_true_iff; split; apply Z.leb_le; lia);
    reflexivity. }
  destruct u; try contradiction; exact Hdig.
Qed.

Lemma drop_slashes_no_slash l :
  Forall (fun c => c <> "/"%char) l -> drop_slashes l = l.
Proof.
  destruct l as [|c l]; intros H; [reflexivity|].
  inversion H; subst. cbn. destruct (decide (c = "/"%char)); [contradiction|reflexivity].
Qed.

Lemma take_to_slash_no_slash l :
  Forall (fun c => c <> "/"%char) l -> take_to_slash l = l.
Proof.
  induction l as [|c l IH]; intros H; [reflexivity|].
  inversion H; subst. cbn. destruct (decide (c = "/"%char)); [contradiction|].
  rewrite IH by assumption. reflexivity.
Qed.

Lemma take_to_slash_Forall l :
  Forall (fun c => c <> "/"%char) (take_to_slash l).
Proof.
  induction l as [|c l IH]; cbn; [constructor|].
  destruct (decide (c = "/"%char)); [constructor|constructor; assumption].
Qed.

(** [filepath.Base] returns ["."], ["/"] or a name without ["/"]. *)
Lemma Base_no_slash p :
  filepath_Base p = "/" \/
  Forall (fun c => c <> "/"%char) (list_ascii_of_string (filepath_Base p)).
Proof.
  unfold filepath_Base. destruct p as [|c p].
  - right. cbn. repeat constructor. discriminate.
  - destruct (drop_slashes _) as [|a l]; [left; reflexivity|right].
    rewrite list_ascii_of_string_of_list_ascii.
    apply Forall_rev, take_to_slash_Forall.
Qed.

Lemma Base_of_no_slash s :
  s <> EmptyString -> Forall (fun c => c <> "/"%char) (list_ascii_of_string s) ->
  filepath_Base s = s.
Proof.
  intros Hne Hs. unfold filepath_Base.
  destruct s as [|c s']; [contradiction|].
  rewrite drop_slashes_no_slash by (apply Forall_rev; exact Hs).
  destruct (rev (list_ascii_of_string (String c s'))) as [|a l] eqn:Hr.
  - cbn in Hr. apply (f_equal (@length ascii)) in Hr.
    rewrite length_app in Hr. cbn in Hr. lia.
  - rewrite <- Hr. rewrite take_to_slash_no_slash by (apply Forall_rev; exact Hs).
    rewrite rev_involutive. apply string_of_list_ascii_of_string.
Qed.

Lemma list_ascii_append s1 s2 :
  list_ascii_of_string (s1 +++ s2) = list_ascii_of_string s1 ++ list_ascii_of_string s2.
Proof.
  induction s1 as [|c s1 IH]; [reflexivity|]. rewrite append_String.
  cbn [list_ascii_of_string]. rewrite IH. reflexivity.
Qed.

Lemma string_of_uint_Forall u :
  Forall (fun c => c <> "/"%char) (list_ascii_of_string (string_of_uint u)).
Proof. induction u; cbn; repeat constructor; try assumption; discriminate. Qed.

Lemma partName_Base i inputFile :
  0 <= i -> filepath_Base inputFile <> "/" ->
  filepath_Base (partName i inputFile) = partName i inputFile.
Proof.
  intros Hi HB. destruct (itoa_nonneg i Hi) as (u & _ & Hs & Hnil).
  apply Base_of_no_slash.
  - unfold partName. rewrite Hs. destruct u; try contradiction; discriminate.
  - destruct (Base_no_slash inputFile) as [|HF]; [contradiction|].
    unfold partName. rewrite Hs, !list_ascii_append.
    repeat apply Forall_app_2; try apply string_of_uint_Forall; try exact HF;
      cbn; repeat constructor; discriminate.
Qed.

(** [concatenateFiles] recovers the segment index from a part file name. *)
Lemma parse_partName i inputFile :
  0 <= i <= 2^63 - 1 -> filepath_Base inputFile <> "/" ->
  exists rest, split_dash (filepath_Base (partName i inputFile)) = [itoa i; rest]
               /\ atoi (itoa i) = Some i.
Proof.
  intros Hi HB. rewrite partName_Base by (lia || assumption).
  destruct (itoa_nonneg i ltac:(lia)) as (u & _ & Hs & _).
  eexists. split; [|apply atoi_itoa; lia].
  unfold partName. rewrite Hs. apply string_of_uint_no_dash.
Qed.

Lemma partName_inj i j inputFile :
  0 <= i <= 2^63 - 1 -> 0 <= j <= 2^63 - 1 -> filepath_Base inputFile <> "/" ->
  partName i inputFile = partName j inputFile -> i = j.
Proof.
  intros Hi Hj HB E.
  destruct (parse_partName i inputFile Hi HB) as (r1 & S1 & A1).
  destruct (parse_partName j inputFile Hj HB) as (r2 & S2 & A2).
  rewrite E, S2 in S1. injection S1 as E1 _. rewrite E1 in A2. congruence.
Qed.

(** ** The reassembler *)

#[export] Instance index_le_trans : Transitive index_le.
Proof. intros a b c; unfold index_le; lia. Qed.

Lemma in_zseq n i : In i (zseq n) <-> 0 <= i < n.
Proof.
  unfold zseq. rewrite in_map_iff. split.
  - intros (k & <- & Hk). apply in_seq in Hk. lia.
  - intros Hi. exists (Z.to_nat i). split; [lia|]. apply in_seq. lia.
Qed.

Lemma deleteAll_lookup names m k :
  deleteAll names m !! k = if in_dec string_dec k names then None else m !! k.
Proof.
  revert m. induction names as [|n ns IH]; intros m; cbn [deleteAll]; [reflexivity|].
  rewrite IH.
  destruct (in_dec string_dec k ns), (in_dec string_dec k (n :: ns)) as [Hin|Hnin];
    cbn [In] in *; try tauto.
  - destruct (decide (n = k)) as [->|Hnk]; [|tauto].
    rewrite lookup_delete_eq; reflexivity.
  - rewrite lookup_delete_ne by tauto. reflexivity.
Qed.

Lemma removeAll_run files st :
  removeAll files st
  = Done tt (mkSt (deleteAll (map Name files) (st_fs st)) (st_stdout st) (st_stderr st)).
Proof.
  revert st. induction files as [|f fl IH]; intros st; cbn.
  - unfold ret. rewrite <- st_eta. reflexivity.
  - unfold bind, remove_file, get_fs, put_fs, bind. cbn. rewrite IH. reflexivity.
Qed.

Section Reassemble.
Variable sortSlice : list FileWithIndex -> list FileWithIndex.
Hypothesis Hperm : forall l, Permutation (sortSlice l) l.
Hypothesis Hsorted : forall l, Sorted index_le (sortSlice l).
Variables (env : Env) (inputFile outputFile : string).
Hypothesis HB : filepath_Base inputFile <> "/".

Let pn (i : Z) : string := partName i inputFile.
Let mkf (i : Z) : FileWithIndex := mkFileWithIndex i (pn i).

Lemma parseNames_parts (order : list Z) :
  Forall (fun i => 0 <= i <= 2^63 - 1) order ->
  parseNames (map pn order) = (None, map mkf order).
Proof.
  induction order as [|i order IH]; intros Hr; [reflexivity|].
  inversion Hr as [|? ? Hi Hr']; subst.
  cbn [map parseNames].
  destruct (parse_partName i inputFile Hi HB) as (rest & Hs & Ha).
  unfold pn at 1. rewrite Hs, Ha, IH by assumption. reflexivity.
Qed.

Lemma Sorted_mkf_seq (s n : nat) :
  Sorted index_le (map mkf (map Z.of_nat (seq s n))).
Proof.
  revert s. induction n as [|n IH]; intros s; cbn; constructor; [apply IH|].
  destruct n; cbn; constructor. unfold index_le; cbn. lia.
Qed.

Lemma sort_parts (T : Z) (order : list Z) :
  Permutation order (zseq T) ->
  sortSlice (map mkf order) = map mkf (zseq T).
Proof.
  intros Hp. apply (Sorted_unique_strong index_le).
  - intros x1 x2 Hx1 Hx2 H12 H21.
    apply list_elem_of_In in Hx1, Hx2.
    apply (Permutation_in _ (Hperm _)) in Hx1.
    apply in_map_iff in Hx1 as (i1 & <- & _).
    apply in_map_iff in Hx2 as (i2 & <- & _).
    unfold index_le, mkf in *; cbn in *. f_equal; [lia|]. f_equal. lia.
  - apply Hsorted.
  - apply Sorted_mkf_seq.
  - rewrite Hperm. apply Permutation_map. exact Hp.
Qed.

Lemma copyAll_parts (payload : Z -> list byte) (is : list Z) (st : St) acc :
  env_write env outputFile = None ->
  (forall i, In i is -> pn i <> outputFile /\ st_fs st !! pn i = Some (payload i)) ->
  st_fs st !! outputFile = Some acc ->
  copyAll env outputFile (map mkf is) st
  = Done None (mkSt (<[outputFile := acc ++ concat (map payload is)]> (st_fs st))
                    (st_stdout st) (st_stderr st)).
Proof.
  intros Hw. revert st acc. induction is as [|i is IH]; intros st acc Hp Hacc.
  - cbn. rewrite app_nil_r, insert_id by exact Hacc. unfold ret. rewrite <- st_eta. reflexivity.
  - destruct (Hp i (or_introl eq_refl)) as [Hne Hi].
    cbn [map copyAll]. unfold bind at 1, get_fs at 1.
    change (Name (mkf i)) with (pn i). rewrite Hi, Hw.
    assert (Hstep :
      (match payload i, @None string with
       | _ :: _, Some m => ret (Some ("failed to write to output file: " +++ m))
       | _, _ => let* _ := append_file outputFile (payload i) in
                 copyAll env outputFile (map mkf is)
       end) st
      = copyAll env outputFile (map mkf is)
          (mkSt (<[outputFile := acc ++ payload i]> (st_fs st))
                (st_stdout st) (st_stderr st))).
    { destruct (payload i); unfold bind, append_file, get_fs, put_fs, bind;
        cbn [st_fs]; rewrite Hacc; reflexivity. }
    rewrite Hstep.
    rewrite (IH _ (acc ++ payload i)).
    + cbn. rewrite insert_insert_eq, <- app_assoc. reflexivity.
    + intros j Hj. destruct (Hp j (or_intror Hj)) as [Hne' Hj'].
      split; [exact Hne'|]. cbn. rewrite lookup_insert_ne by congruence. exact Hj'.
    + cbn. rewrite lookup_insert_eq. reflexivity.
Qed.

Lemma concatenate_parts (T : Z) (payload : Z -> list byte) (order : list Z) (st : St) :
  T <= 2^63 ->
  env_create env outputFile = None -> env_write env outputFile = None ->
  (forall j, pn j <> outputFile) ->
  Permutation order (zseq T) ->
  (forall i, 0 <= i < T -> st_fs st !! pn i = Some (payload i)) ->
  concatenateFiles sortSlice env (map pn order) outputFile st
  = Done None
      (mkSt (deleteAll (map pn (zseq T))
               (<[outputFile := concat (map payload (zseq T))]> (st_fs st)))
            (st_stdout st) (st_stderr st)).
Proof.
  intros HT Hc Hw Hout Hp Hfiles.
  assert (Hr : Forall (fun i => 0 <= i <= 2^63 - 1) order).
  { apply Forall_forall. intros i Hi.
    apply list_elem_of_In, (Permutation_in _ Hp), in_zseq in Hi. lia. }
  unfold concatenateFiles. rewrite parseNames_parts by exact Hr.
  rewrite (sort_parts T order Hp), Hc.
  unfold bind at 1, create_file, bind at 1, get_fs, put_fs. cbn [st_fs st_stdout st_stderr].
  unfold bind at 1.
  rewrite (copyAll_parts payload (zseq T)
             (mkSt (<[outputFile:=[]]> (st_fs st)) (st_stdout st) (st_stderr st)) []).
  - unfold bind. rewrite removeAll_run. cbn. rewrite insert_insert_eq, map_map. reflexivity.
  - exact Hw.
  - intros i Hi. apply in_zseq in Hi. split; [apply Hout|].
    cbn. rewrite lookup_insert_ne by (apply not_eq_sym, Hout). apply Hfiles; exact Hi.
  - cbn. apply lookup_insert_eq.
Qed.

End Reassemble.

Lemma string_length_append s t :
  String.length (s +++ t) = (String.length s + String.length t)%nat.
Proof.
  induction s as [|c s IH]; [reflexivity|]. rewrite append_String. cbn. lia.
Qed.

Lemma parts_name_long j f : (20 <= String.length (partName j f))%nat.
Proof.
  unfold partName. rewrite !string_length_append. cbn [String.length]. lia.
Qed.

(** ** The worker on a planner segment *)

Section PlanWorker.
Variable encodeAll : Z -> list byte -> list byte.
Variables (inputFile : string) (level : Z) (X : list byte) (T : Z).
Let L := Z.of_nat (length X).
Hypothesis HL : L <= maxSafeSize.
Hypothesis HT : 1 <= T.

Lemma compressPart_plan (i : nat) (s e : Z) (st : St) :
  st_fs st !! inputFile = Some X ->
  nth_error (idealPlan L T) i = Some (s, e) ->
  exists cs : list (list byte),
    concat cs = firstn (Z.to_nat (e - s)) (skipn (Z.to_nat s) X) /\
    compressPart encodeAll regularEnv inputFile (Z.of_nat i) (s, e) level st
    = Done (partName (Z.of_nat i) inputFile, None)
        (mkSt (<[partName (Z.of_nat i) inputFile :=
                   concat (map (encodeAll level) cs)]> (st_fs st))
              (st_stdout st) (st_stderr st)).
Proof.
  intros Hin Hseg.
  assert (Hi : (i < Z.to_nat T)%nat).
  { rewrite <- (idealPlan_length L T). apply nth_error_Some. congruence. }
  rewrite idealPlan_lookup in Hseg by (lia || exact Hi).
  assert (Hp : idealSeg L (unitsOf L / T) (unitsOf L mod T) i = (s, e)) by congruence.
  pose proof (idealSeg_bounds L T ltac:(lia) HT i Hi) as Hb.
  pose proof (idealSeg_aligned L T ltac:(lia) HT i Hi) as Ha.
  rewrite Hp in Hb, Ha.
  unfold compressPart, bind at 1, get_fs. rewrite Hin. cbn [env_create regularEnv].
  unfold bind at 1, create_file, bind at 1, get_fs, put_fs. cbn [st_fs st_stdout st_stderr].
  replace (if s <? 0 then 0 else s) with s by (destruct (Z.ltb_spec s 0); lia).
  edestruct (readLoop_regular encodeAll regularEnv level (Z.of_nat i) X
               (partName (Z.of_nat i) inputFile) (fun _ => eq_refl) eq_refl
               (S (Z.to_nat (e - s))) s e
               (mkSt (<[partName (Z.of_nat i) inputFile:=[]]> (st_fs st))
                     (st_stdout st) (st_stderr st)) [])
    as (cs & Hcat & _ & Hrun).
  { fold L. lia. }
  { fold L. destruct Ha as [He|Ha]; [left; lia|right; exact Ha]. }
  { lia. }
  { apply lookup_insert_eq. }
  exists cs. split.
  - rewrite Hcat. fold L. do 2 f_equal. lia.
  - unfold bind. rewrite Hrun. cbn. rewrite insert_insert_eq. reflexivity.
Qed.

Hypothesis HTmax : T <= 2^63 - 1.
Hypothesis HB : filepath_Base inputFile <> "/".
Hypothesis Hinp : forall j, partName j inputFile <> inputFile.

(** The bytes of the planner's [i]-th segment. *)
Let segBytes (i : Z) : list byte :=
  let '(s, e) := idealSeg L (unitsOf L / T) (unitsOf L mod T) (Z.to_nat i) in
  firstn (Z.to_nat (e - s)) (skipn (Z.to_nat s) X).

Lemma runWorkers_plan (order : list Z) (st : St) :
  st_fs st !! inputFile = Some X ->
  NoDup order -> Forall (fun i => 0 <= i < T) order ->
  exists (payload : Z -> list byte) fs',
    (forall i, In i order -> exists cs, concat cs = segBytes i /\
                 payload i = concat (map (encodeAll level) cs)) /\
    runWorkers encodeAll regularEnv inputFile level (idealPlan L T) order st
    = Done (map (fun i => (partName i inputFile, None)) order)
           (mkSt fs' (st_stdout st) (st_stderr st)) /\
    (forall i, In i order -> fs' !! partName i inputFile = Some (payload i)) /\
    (forall k, (forall j, In j order -> partName j inputFile <> k) ->
               fs' !! k = st_fs st !! k).
Proof.
  revert st. induction order as [|i rest IH]; intros st Hin Hnd Hr.
  - exists (fun _ => []), (st_fs st). split; [intros i []|].
    split; [unfold ret; rewrite <- st_eta; reflexivity|].
    split; [intros i []|reflexivity].
  - inversion Hnd as [|? ? Hni0 Hnd']; subst.
    assert (Hni : ~ In i rest) by (rewrite <- list_elem_of_In; exact Hni0).
    inversion Hr as [|? ? Hi Hr']; subst.
    assert (Hi' : (Z.to_nat i < Z.to_nat T)%nat) by lia.
    cbn [runWorkers]. replace (i <? 0) with false by (symmetry; apply Z.ltb_ge; lia).
    rewrite idealPlan_lookup by (lia || exact Hi').
    destruct (idealSeg L (unitsOf L / T) (unitsOf L mod T) (Z.to_nat i)) as [s e] eqn:Hseg.
    destruct (compressPart_plan (Z.to_nat i) s e st Hin) as (cs & Hcs & Hrun).
    { rewrite idealPlan_lookup by (lia || exact Hi'). rewrite Hseg. reflexivity. }
    rewrite Z2Nat.id in Hrun by lia.
    set (st1 := mkSt (<[partName i inputFile := concat (map (encodeAll level) cs)]>
                        (st_fs st)) (st_stdout st) (st_stderr st)) in Hrun.
    destruct (IH st1) as (pl & fs' & Hpl & Hrun' & Hfs' & Hkeep); [|exact Hnd'|exact Hr'|].
    { cbn. rewrite lookup_insert_ne by (apply Hinp). exact Hin. }
    exists (fun j => if j =? i then concat (map (encodeAll level) cs) else pl j), fs'.
    split; [|split; [|split]].
    + intros j [<-|Hj].
      * exists cs. rewrite Z.eqb_refl. split; [|reflexivity].
        unfold segBytes. rewrite Hseg. exact Hcs.
      * destruct (Z.eqb_spec j i) as [->|_]; [contradiction|]. apply Hpl, Hj.
    + unfold bind at 1. rewrite Hrun. unfold bind. rewrite Hrun'. reflexivity.
    + intros j [<-|Hj].
      * rewrite Z.eqb_refl. rewrite Hkeep.
        -- cbn. apply lookup_insert_eq.
        -- intros j Hj E. apply partName_inj in E; [subst; contradiction| | |exact HB];
           rewrite List.Forall_forall in Hr'; pose proof (Hr' _ Hj); lia.
      * destruct (Z.eqb_spec j i) as [->|_]; [contradiction|]. apply Hfs', Hj.
    + intros k Hk. rewrite Hkeep by (intros j Hj; apply Hk; right; exact Hj).
      cbn. apply lookup_insert_ne, Hk. left. reflexivity.
Qed.

End PlanWorker.

(** ** Consecutive segments cover their union *)

Lemma mono_steps (c : nat -> Z) (Hc : forall i, c i <= c (S i)) k n :
  c k <= c (k + n)%nat.
Proof.
  induction n as [|n IH]; [rewrite Nat.add_0_r; lia|].
  rewrite Nat.add_succ_r. specialize (Hc (k + n)%nat). lia.
Qed.

Lemma concat_chain (c : nat -> Z) (X : list byte)
    (Hc0 : forall i, 0 <= c i) (Hc : forall i, c i <= c (S i)) (n k : nat) :
  concat (map (fun i => firstn (Z.to_nat (c (S i) - c i)) (skipn (Z.to_nat (c i)) X))
              (seq k n))
  = firstn (Z.to_nat (c (k + n)%nat - c k)) (skipn (Z.to_nat (c k)) X).
Proof.
  revert k. induction n as [|n IH]; intros k.
  - rewrite Nat.add_0_r, Z.sub_diag. reflexivity.
  - cbn [seq map concat]. rewrite IH.
    pose proof (Hc0 k). pose proof (Hc k). pose proof (mono_steps c Hc (S k) n).
    replace (k + S n)%nat with (S k + n)%nat by lia.
    replace (c (S k + n)%nat - c k) with ((c (S k) - c k) + (c (S k + n)%nat - c (S k)))
      by lia.
    rewrite Z2Nat.inj_add by lia. rewrite firstn_plus. f_equal.
    rewrite skipn_skipn. replace (Z.to_nat (c (S k) - c k) + Z.to_nat (c k))%nat with (Z.to_nat (c (S k))) by lia. reflexivity.
Qed.

(** ** Decoding a concatenation of frames *)

Section Codec.
Variables (encodeAll : Z -> list byte -> list byte)
          (decodeAll : list byte -> option (list byte)).
Hypothesis Hdec_nil : decodeAll [] = Some [].
Hypothesis Hdec_frame : forall lvl c r,
  decodeAll (encodeAll lvl c ++ r) = option_map (fun d => c ++ d) (decodeAll r).

Lemma decode_frames lvl cs r :
  decodeAll (concat (map (encodeAll lvl) cs) ++ r)
  = option_map (fun d => concat cs ++ d) (decodeAll r).
Proof.
  induction cs as [|c cs IH]; cbn.
  - destruct (decodeAll r); reflexivity.
  - rewrite <- app_assoc, Hdec_frame, IH. destruct (decodeAll r); cbn; [|reflexivity].
    rewrite app_assoc. reflexivity.
Qed.

Lemma decode_payloads (is : list Z) (payload sub : Z -> list byte) lvl :
  (forall i, In i is -> exists cs, concat cs = sub i /\
                 payload i = concat (map (encodeAll lvl) cs)) ->
  decodeAll (concat (map payload is)) = Some (concat (map sub is)).
Proof.
  induction is as [|i is IH]; intros H; cbn; [exact Hdec_nil|].
  destruct (H i (or_introl eq_refl)) as (cs & Hcs & ->).
  rewrite decode_frames, IH by (intros j Hj; apply H; right; exact Hj).
  cbn. rewrite Hcs. reflexivity.
Qed.

End Codec.

(** ** The whole pipeline below the overflow bound *)

Lemma errorsOf_ok {A} (f : A -> string) (l : list A) :
  errorsOf (map (fun i => (f i, None)) l) = [].
Proof. induction l as [|n ns IH]; [reflexivity|]. exact IH. Qed.

Lemma NoDup_zseq n : NoDup (zseq n).
Proof.
  unfold zseq. apply (NoDup_fmap_2 Z.of_nat). apply NoDup_ListNoDup, seq_NoDup.
Qed.

Lemma segments_cover (X : list byte) (T : Z) :
  Z.of_nat (length X) <= maxSafeSize -> 1 <= T ->
  let L := Z.of_nat (length X) in
  concat (map (fun i =>
      let '(s, e) := idealSeg L (unitsOf L / T) (unitsOf L mod T) (Z.to_nat i) in
      firstn (Z.to_nat (e - s)) (skipn (Z.to_nat s) X)) (zseq T)) = X.
Proof.
  intros HL HT L.
  destruct (ideal_facts L T ltac:(lia) HT) as (Hs & Hr & _ & HU).
  pose proof (ideal_cum_total L T ltac:(lia) HT) as Htot.
  set (c := fun i : nat => Z.min (cumOf (unitsOf L / T) (unitsOf L mod T) (Z.of_nat i)) L).
  unfold zseq. rewrite map_map.
  erewrite map_ext.
  2:{ intros i. rewrite Nat2Z.id. unfold idealSeg. fold (c i). fold (c (S i)). reflexivity. }
  rewrite (concat_chain c X).
  - unfold c. rewrite Nat.add_0_l, Z2Nat.id, Htot by lia. cbn [Z.of_nat].
    rewrite cumOf_zero by lia. rewrite (Z.min_r _ L) by lia. rewrite Z.min_l by lia.
    rewrite Z.sub_0_r. unfold L. rewrite Nat2Z.id, firstn_all. reflexivity.
  - intros i. unfold c. pose proof (cumOf_nonneg (unitsOf L / T) (unitsOf L mod T)
                                    (Z.of_nat i) Hs ltac:(lia) ltac:(lia)). lia.
  - intros i. unfold c. pose proof (cumOf_mono (unitsOf L / T) (unitsOf L mod T)
                                    (Z.of_nat i) (Z.of_nat (S i)) Hs ltac:(lia)). lia.
Qed.

Section SafePipeline.
Variables (encodeAll : Z -> list byte -> list byte)
          (decodeAll : list byte -> option (list byte)).
Hypothesis Hdec_nil : decodeAll [] = Some [].
Hypothesis Hdec_frame : forall lvl c r,
  decodeAll (encodeAll lvl c ++ r) = option_map (fun d => c ++ d) (decodeAll r).
Variable sortSlice : list FileWithIndex -> list FileWithIndex.
Hypothesis Hperm : forall l, Permutation (sortSlice l) l.
Hypothesis Hsorted : forall l, Sorted index_le (sortSlice l).
Variables (inputFile outputFile : string) (level T : Z) (order : list Z).
Hypothesis HT : 1 <= T <= 2^63 - 1.
Hypothesis HB : filepath_Base inputFile <> "/".
Hypothesis Hinp : forall j, partName j inputFile <> inputFile.
Hypothesis Hout : forall j, partName j inputFile <> outputFile.
Hypothesis Horder : Permutation order (zseq T).

(** Below the overflow bound, on a regular file, with workers completing in
    any order: the pipeline succeeds, its output decodes to the input and
    no part file is left. *)
Lemma compressFileBlock_safe (X : list byte) (st : St) :
  Z.of_nat (length X) <= maxSafeSize ->
  st_fs st !! inputFile = Some X ->
  exists st',
    compressFileBlock encodeAll sortSlice regularEnv inputFile outputFile level T
      order st = Done None st' /\
    (exists Y, st_fs st' !! outputFile = Some Y /\ decompressFile decodeAll Y = Some X) /\
    (forall j, 0 <= j < T -> st_fs st' !! partName j inputFile = None).
Proof.
  intros HL Hin.
  assert (Hnd : NoDup order)
    by (rewrite Horder; apply NoDup_zseq).
  assert (Hr : Forall (fun i => 0 <= i < T) order).
  { apply List.Forall_forall. intros i Hi.
    apply (Permutation_in _ Horder), in_zseq in Hi. exact Hi. }
  unfold compressFileBlock, bind at 1, get_fs. rewrite Hin.
  rewrite plan_safe by lia. rewrite (proj2 (Z.ltb_ge T 0)) by lia. cbn iota.
  unfold bind at 1, eprintln.
  set (st1 := mkSt (st_fs st) (st_stdout st) (st_stderr st ++ ["Working, please wait ..."])).
  edestruct (runWorkers_plan encodeAll inputFile level X T) with (order := order) (st := st1)
    as (payload & fs' & Hpl & Hrun & Hfs' & Hkeep);
    try (exact HL || exact HB || exact Hinp || exact Hin || exact Hnd || exact Hr || lia).
  unfold bind at 1. rewrite Hrun. rewrite errorsOf_ok, map_map. cbn [fst].
  unfold bind.
  rewrite (concatenate_parts sortSlice Hperm Hsorted regularEnv inputFile outputFile HB
             T payload order _ ltac:(lia) eq_refl eq_refl Hout Horder).
  2:{ intros i Hi. cbn [st_fs]. apply Hfs'.
      apply (Permutation_in _ (Permutation_sym Horder)), in_zseq, Hi. }
  eexists. split; [reflexivity|]. cbn [st_fs]. split.
  - exists (concat (map payload (zseq T))). split.
    + rewrite deleteAll_lookup. destruct (in_dec string_dec outputFile _) as [Hi|_].
      * apply in_map_iff in Hi as (j & Hj & _). exfalso. exact (Hout j Hj).
      * apply lookup_insert_eq.
    + unfold decompressFile.
      rewrite (decode_payloads encodeAll decodeAll Hdec_nil Hdec_frame (zseq T) payload
        (fun i =>
           let L := Z.of_nat (length X) in
           let '(s, e) := idealSeg L (unitsOf L / T) (unitsOf L mod T) (Z.to_nat i) in
           firstn (Z.to_nat (e - s)) (skipn (Z.to_nat s) X)) level).
      * f_equal. apply segments_cover; lia.
      * intros i Hi. apply Hpl. apply (Permutation_in _ (Permutation_sym Horder)), Hi.
  - intros j Hj. rewrite deleteAll_lookup.
    destruct (in_dec string_dec _ _) as [_|Hn]; [reflexivity|].
    exfalso. apply Hn, in_map_iff. exists j. split; [reflexivity|]. apply in_zseq, Hj.
Qed.

End SafePipeline.

(** ** The planner above the overflow bound *)

Lemma plan_overflow_1 :
  divideFileIntoSegments (2^63 - 1) 1 = Some [(0, -9223372036853727232)].
Proof. vm_compute. reflexivity. Qed.

(** A read that moves the position past [endOffset] ends in the panic. *)
Lemma readLoop_overread enc env fuel lvl idx X out pos e n st :
  env_read env idx X pos = (n, RNone) -> 0 < n <= oneMB ->
  env_write env out = None -> e < pos + n ->
  exists st', readLoop enc env (S fuel) lvl idx X out pos e st = Panicked overReadMsg st'.
Proof.
  intros Hr Hn Hw He. cbn [readLoop]. rewrite Hr.
  replace (n =? 0) with false by (symmetry; apply Z.eqb_neq; lia).
  replace ((n <? 0) || (oneMB <? n))%bool with false
    by (symmetry; apply orb_false_iff; split; apply Z.ltb_ge; lia).
  rewrite Hw. unfold bind.
  replace (pos + n =? e) with false by (symmetry; apply Z.eqb_neq; lia).
  replace (e <? pos + n) with true by (symmetry; apply Z.ltb_lt; lia).
  eexists. reflexivity.
Qed.

(** The worker on the segment [(0, 2^20 - 2^63)] of a file of [2^63 - 1]
    bytes reads 1 MiB and panics. *)
Lemma compressPart_overflow enc inputFile level X st :
  length X = Z.to_nat (2^63 - 1) ->
  st_fs st !! inputFile = Some X ->
  exists st', compressPart enc regularEnv inputFile 0 (0, -9223372036853727232) level st
              = Panicked overReadMsg st'.
Proof.
  intros HX Hin. unfold compressPart, bind at 1, get_fs. rewrite Hin.
  cbn [env_create regularEnv].
  unfold bind at 1, create_file, bind at 1, get_fs, put_fs. cbn [st_fs st_stdout st_stderr].
  change (if 0 <? 0 then 0 else 0) with 0.
  change (S (Z.to_nat (-9223372036853727232 - 0))) with 1%nat.
  destruct (readLoop_overread enc regularEnv 0 level 0 X (partName 0 inputFile) 0
              (-9223372036853727232) oneMB
              (mkSt (<[partName 0 inputFile:=[]]> (st_fs st)) (st_stdout st) (st_stderr st)))
    as [st' Hp].
  - cbn [env_read regularEnv]. unfold regularRead. rewrite HX, Z2Nat.id by lia.
    reflexivity.
  - unfold oneMB; lia.
  - reflexivity.
  - unfold oneMB; lia.
  - unfold bind. rewrite Hp. exists st'. reflexivity.
Qed.

Lemma idealPlan_nth fs T i s e :
  0 <= fs -> 1 <= T -> nth_error (idealPlan fs T) i = Some (s, e) ->
  (i < Z.to_nat T)%nat /\ idealSeg fs (unitsOf fs / T) (unitsOf fs mod T) i = (s, e).
Proof.
  intros Hfs HT Hp.
  assert (Hi : (i < Z.to_nat T)%nat).
  { rewrite <- (idealPlan_length fs T). apply nth_error_Some. congruence. }
  split; [exact Hi|]. rewrite idealPlan_lookup in Hp by (lia || exact Hi). congruence.
Qed.

(** Below the overflow bound the plan has [T] segments that partition
    [[0, fs)] in index order. *)
Lemma plan_partition_safe fs T :
  0 <= fs <= maxSafeSize -> 1 <= T ->
  exists segs, divideFileIntoSegments fs T = Some segs /\
    length segs = Z.to_nat T /\
    (forall i s e, nth_error segs i = Some (s, e) -> (0 <= s <= e /\ e <= fs)) /\
    (forall i s e s' e', nth_error segs i = Some (s, e) ->
                         nth_error segs (S i) = Some (s', e') -> s' = e) /\
    (exists e0, nth_error segs 0 = Some (0, e0)) /\
    (exists sl, nth_error segs (Z.to_nat T - 1) = Some (sl, fs)).
Proof.
  intros Hfs HT. exists (idealPlan fs T).
  destruct (ideal_facts fs T ltac:(lia) HT) as (Hs & Hr & _ & HU).
  pose proof (ideal_cum_total fs T ltac:(lia) HT) as Htot.
  split; [apply plan_safe; lia|]. split; [apply idealPlan_length|]. split; [|split; [|split]].
  - intros i s e Hp. apply idealPlan_nth in Hp as [Hi Hp]; [|lia|exact HT].
    pose proof (idealSeg_bounds fs T ltac:(lia) HT i Hi) as Hb.
    rewrite Hp in Hb. exact Hb.
  - intros i s e s' e' Hp Hq.
    apply idealPlan_nth in Hp as [_ Hp]; [|lia|exact HT].
    apply idealPlan_nth in Hq as [_ Hq]; [|lia|exact HT].
    unfold idealSeg in Hp, Hq. congruence.
  - exists (Z.min (cumOf (unitsOf fs / T) (unitsOf fs mod T) 1) fs).
    rewrite idealPlan_lookup by lia. unfold idealSeg. cbn [Z.of_nat].
    rewrite cumOf_zero, Z.min_l by lia. reflexivity.
  - exists (Z.min (cumOf (unitsOf fs / T) (unitsOf fs mod T) (Z.of_nat (Z.to_nat T - 1))) fs).
    rewrite idealPlan_lookup by lia. unfold idealSeg.
    replace (Z.of_nat (S (Z.to_nat T - 1))) with T by lia.
    rewrite Htot, (Z.min_r (unitsOf fs * oneMB) fs) by lia. reflexivity.
Qed.

Lemma map_const_seq {A} (a : A) (n k : nat) :
  map (fun _ => a) (seq k n) = repeat a n.
Proof. revert k. induction n as [|n IH]; intros k; cbn; [reflexivity|]. rewrite IH. reflexivity. Qed.

Lemma readLoop_step enc env fuel lvl idx X out pos e n st :
  env_read env idx X pos = (n, RNone) -> 0 < n <= oneMB ->
  env_write env out = None -> pos + n < e ->
  readLoop enc env (S fuel) lvl idx X out pos e st
  = readLoop enc env fuel lvl idx X out (pos + n) e
      (mkSt (<[out := default [] (st_fs st !! out)
                      ++ enc lvl (firstn (Z.to_nat n) (skipn (Z.to_nat pos) X))]> (st_fs st))
            (st_stdout st) (st_stderr st)).
Proof.
  intros Hr Hn Hw He. cbn [readLoop]. rewrite Hr.
  replace (n =? 0) with false by (symmetry; apply Z.eqb_neq; lia).
  replace ((n <? 0) || (oneMB <? n))%bool with false
    by (symmetry; apply orb_false_iff; split; apply Z.ltb_ge; lia).
  rewrite Hw. unfold bind.
  replace (pos + n =? e) with false by (symmetry; apply Z.eqb_neq; lia).
  replace (e <? pos + n) with false by (symmetry; apply Z.ltb_ge; lia).
  reflexivity.
Qed.

(** A worker whose read loop panics panics. *)
Lemma compressPart_panics enc env inputFile i s e level X st msg :
  st_fs st !! inputFile = Some X -> env_create env (partName i inputFile) = None -> 0 <= s ->
  (forall st0, exists st',
     readLoop enc env (S (Z.to_nat (e - s))) level i X (partName i inputFile) s e st0
     = Panicked msg st') ->
  exists st', compressPart enc env inputFile i (s, e) level st = Panicked msg st'.
Proof.
  intros Hin Hc Hs Hl. unfold compressPart, bind at 1, get_fs. rewrite Hin, Hc.
  unfold bind at 1, create_file, bind at 1, get_fs, put_fs.
  replace (if s <? 0 then 0 else s) with s by (destruct (Z.ltb_spec s 0); lia).
  destruct (Hl (mkSt (<[partName i inputFile:=[]]> (st_fs (st)))
                     (st_stdout st) (st_stderr st))) as [st' Hp].
  unfold bind. cbn [st_fs st_stdout st_stderr]. rewrite Hp. exists st'. reflexivity.
Qed.

Lemma index_le_total : Total index_le.
Proof. intros a b. unfold index_le. lia. Qed.

Lemma merge_sort_index_perm l : Permutation (merge_sort index_le l) l.
Proof. apply merge_sort_Permutation. Qed.

Lemma merge_sort_index_sorted l : Sorted index_le (merge_sort index_le l).
Proof. pose proof index_le_total. apply (Sorted_merge_sort index_le). Qed.

(** * What [concatenateFiles] leaves behind *)



Section Leftovers.
Variable sortSlice : list FileWithIndex -> list FileWithIndex.
Hypothesis Hperm : forall l, Permutation (sortSlice l) l.
Variables (env : Env) (outputFile : string).


End Leftovers.

(** * The claims *)

(** C1 (round trip).  The round trip fails for a file of [2^63 - 1] bytes
    with one worker: [fileSize + oneMB - 1] overflows [int64], the planner
    returns the segment [(0, 2^20 - 2^63)], the worker's first 1 MiB read
    ends past that end offset and the pipeline panics with the over-read
    message instead of producing an output. *)
Theorem C1_blockCompress_overflow_panics enc sortSlice inputFile outputFile level X st :
  length X = Z.to_nat (2^63 - 1) ->
  st_fs st !! inputFile = Some X ->
  exists st', compressFileBlock enc sortSlice regularEnv inputFile outputFile level 1 [0] st
              = Panicked overReadMsg st'.
Proof.
  intros HX Hin. unfold compressFileBlock, bind at 1, get_fs. rewrite Hin, HX, Z2Nat.id by lia.
  rewrite plan_overflow_1. unfold bind at 1, eprintln.
  cbn [runWorkers Z.ltb Z.compare].
  change (Z.to_nat 0) with 0%nat. cbn [nth_error]. cbv beta iota.
  destruct (compressPart_overflow enc inputFile level X
              (mkSt (st_fs st) (st_stdout st) (st_stderr st ++ ["Working, please wait ..."]))
              HX Hin) as [st' Hp].
  unfold bind. rewrite Hp. exists st'. reflexivity.
Qed.

(** C1 witness: a file of [2^63 - 1] zero bytes, one worker. *)
Lemma C1_witness :
  length (repeat x00 (Z.to_nat (2^63 - 1))) = Z.to_nat (2^63 - 1) /\
  exists st', compressFileBlock (fun _ c => c) (merge_sort index_le) regularEnv
                "in" "out" 3 1 [0]
                (mkSt {[ "in" := repeat x00 (Z.to_nat (2^63 - 1)) ]} [] [])
              = Panicked overReadMsg st'.
Proof.
  split; [apply repeat_length|].
  apply (C1_blockCompress_overflow_panics (fun _ c => c) (merge_sort index_le) "in" "out" 3
           (repeat x00 (Z.to_nat (2^63 - 1)))).
  - apply repeat_length.
  - apply lookup_singleton_eq.
Defined.

(** C2 (partition).  Fails above the overflow bound: for [fileSize = 2^63 - 1]
    and one worker the only segment is [(0, 2^20 - 2^63)], whose end is not
    [fileSize] (and lies before its start). *)
Theorem C2_plan_overflow : divideFileIntoSegments (2^63 - 1) 1 = Some [(0, 2^20 - 2^63)].
Proof. vm_compute. reflexivity. Qed.

(** C3 counterexample: a 2 MiB file, two workers.  The planner gives the
    1 MiB aligned segments [(0, 1 MiB); (1 MiB, 2 MiB)]; worker 0's first
    read returns one byte less than asked for, its second read returns a full
    1 MiB and ends one MiB minus one byte past its segment end: the read is
    not stopped at the end, and the pipeline panics with the over-read
    message. *)
Lemma C3_short_read_overread_panics :
  divideFileIntoSegments (2 * oneMB) 2 = Some [(0, oneMB); (oneMB, 2 * oneMB)] /\
  exists st', compressFileBlock (fun _ c => c) (merge_sort index_le) shortReadEnv
                "in" "out" 3 2 [0; 1]
                (mkSt {[ "in" := repeat x00 (Z.to_nat (2 * oneMB)) ]} [] [])
              = Panicked overReadMsg st'.
Proof.
  assert (Hplan : divideFileIntoSegments (2 * oneMB) 2 = Some [(0, oneMB); (oneMB, 2 * oneMB)])
    by (vm_compute; reflexivity).
  split; [exact Hplan|].
  set (X := repeat x00 (Z.to_nat (2 * oneMB))).
  assert (HX : Z.of_nat (length X) = 2 * oneMB)
    by (unfold X; rewrite repeat_length, Z2Nat.id; [reflexivity|unfold oneMB; lia]).
  unfold compressFileBlock, bind at 1, get_fs. cbn [st_fs]. rewrite lookup_singleton_eq.
  rewrite HX, Hplan. unfold bind at 1, eprintln.
  cbn [runWorkers Z.ltb Z.compare].
  change (Z.to_nat 0) with 0%nat. cbn [nth_error]. cbv beta iota.
  destruct (compressPart_panics (fun _ c => c) shortReadEnv "in" 0 0 oneMB 3 X
              (mkSt (st_fs (mkSt {[ "in" := X ]} [] [])) (st_stdout (mkSt {[ "in" := X ]} [] []))
                    (st_stderr (mkSt {[ "in" := X ]} [] []) ++ ["Working, please wait ..."]))
              overReadMsg) as [st' Hp].
  - apply lookup_singleton_eq.
  - reflexivity.
  - lia.
  - intros st0.
    rewrite (readLoop_step _ _ _ _ _ _ _ _ _ (oneMB - 1)); [| reflexivity | unfold oneMB; lia
                                                          | reflexivity | unfold oneMB; lia].
    replace (Z.to_nat (oneMB - 0)) with (S (Z.to_nat (oneMB - 1))) by (unfold oneMB; lia).
    apply (readLoop_overread _ _ _ _ _ _ _ _ _ oneMB).
    + cbn [env_read shortReadEnv]. unfold regularRead. rewrite HX. vm_compute. reflexivity.
    + unfold oneMB; lia.
    + reflexivity.
    + unfold oneMB; lia.
  - unfold bind. rewrite Hp. exists st'. reflexivity.
Qed.

(** C3 (segment boundary), amended: for [fileSize <= 2^63 - 2^20], one or
    more workers and reads that return [min(1 MiB, bytes left)] (a regular
    file), the worker on any planner segment [(s, e)] stops exactly at [e]
    without the over-read panic: it returns its part file name with no
    error, and the part file holds the frames of chunks whose concatenation
    is exactly the bytes [[s, e)] of the input.  Reads are not truncated at
    [e]; a read that does cross [e] panics ([C3_short_read_overread_panics]). *)
Theorem C3_worker_reads_exact_segment enc inputFile level X T segs (i : nat) s e st :
  Z.of_nat (length X) <= maxSafeSize -> 1 <= T ->
  st_fs st !! inputFile = Some X ->
  divideFileIntoSegments (Z.of_nat (length X)) T = Some segs ->
  nth_error segs i = Some (s, e) ->
  exists cs : list (list byte),
    concat cs = firstn (Z.to_nat (e - s)) (skipn (Z.to_nat s) X) /\
    compressPart enc regularEnv inputFile (Z.of_nat i) (s, e) level st
    = Done (partName (Z.of_nat i) inputFile, None)
        (mkSt (<[partName (Z.of_nat i) inputFile := concat (map (enc level) cs)]> (st_fs st))
              (st_stdout st) (st_stderr st)).
Proof.
  intros HL HT Hin Hplan Hseg.
  rewrite plan_safe in Hplan by lia. injection Hplan as <-.
  apply (compressPart_plan enc inputFile level X T HT i s e st Hin Hseg).
Qed.

(** C3 witness: a 3-byte file, two workers, segment 0. *)
Lemma C3_worker_reads_exact_segment_witness :
  let X0 := [x01; x02; x03] in
  let st0 := mkSt {[ "in" := X0 ]} [] [] in
  let enc0 := fun (_ : Z) (c : list byte) => c in
  (Z.of_nat (length X0) <= maxSafeSize /\ 1 <= 2 /\
   st_fs st0 !! "in" = Some X0 /\
   divideFileIntoSegments (Z.of_nat (length X0)) 2 = Some [(0, 3); (3, 3)] /\
   nth_error [(0, 3); (3, 3)] 0 = Some (0, 3)) /\
  exists cs : list (list byte),
    concat cs = firstn (Z.to_nat (3 - 0)) (skipn (Z.to_nat 0) X0) /\
    compressPart enc0 regularEnv "in" (Z.of_nat 0) (0, 3) 3 st0
    = Done (partName (Z.of_nat 0) "in", None)
        (mkSt (<[partName (Z.of_nat 0) "in" := concat (map (enc0 3) cs)]> (st_fs st0))
              (st_stdout st0) (st_stderr st0)).
Proof.
  intros X0 st0 enc0.
  assert (H1 : Z.of_nat (length X0) <= maxSafeSize) by (unfold maxSafeSize, oneMB; cbn; lia).
  assert (H2 : st_fs st0 !! "in" = Some X0) by (vm_compute; reflexivity).
  assert (H3 : divideFileIntoSegments (Z.of_nat (length X0)) 2 = Some [(0, 3); (3, 3)])
    by (vm_compute; reflexivity).
  assert (H4 : nth_error [(0, 3); (3, 3)] 0 = Some (0, 3)) by reflexivity.
  split; [repeat split; assumption || lia|].
  exact (C3_worker_reads_exact_segment enc0 "in" 3 X0 2 [(0, 3); (3, 3)] 0 0 3 st0 H1 ltac:(lia) H2 H3 H4).
Defined.

(** C4 counterexample: a 2-byte file and the segment [(0, 5)]: the second
    read returns zero bytes at offset 2, below the segment end, and the
    worker succeeds, returning its part file name with no error; the part
    file holds the 2 bytes read. *)
Lemma C4_zero_read_returns_success :
  exists st', compressPart (fun _ c => c) regularEnv "in" 0 (0, 5) 3
                (mkSt {[ "in" := [x01; x02] ]} [] [])
              = Done ("0-in-output-segment.part0", None) st' /\
              st_fs st' !! "0-in-output-segment.part0" = Some [x01; x02].
Proof. eexists. split; vm_compute; reflexivity. Qed.

(** C4 (short read), amended: for a segment [(s, e)] with
    [0 <= s <= fileLength < e], the worker reaches the end of the file
    below [e]; the zero-byte read there ends its loop and it returns
    success (its part file name, no error) with the frames of exactly the
    bytes from [s] to the end of the file.  A zero-byte read is treated as
    the end of the range, not as an error. *)
Theorem C4_zero_read_ends_worker enc inputFile level X (i s e : Z) st :
  0 <= s <= Z.of_nat (length X) -> Z.of_nat (length X) < e ->
  st_fs st !! inputFile = Some X ->
  exists cs : list (list byte),
    concat cs = skipn (Z.to_nat s) X /\
    compressPart enc regularEnv inputFile i (s, e) level st
    = Done (partName i inputFile, None)
        (mkSt (<[partName i inputFile := concat (map (enc level) cs)]> (st_fs st))
              (st_stdout st) (st_stderr st)).
Proof.
  intros Hs He Hin.
  unfold compressPart, bind at 1, get_fs. rewrite Hin. cbn [env_create regularEnv].
  unfold bind at 1, create_file, bind at 1, get_fs, put_fs. cbn [st_fs st_stdout st_stderr].
  replace (if s <? 0 then 0 else s) with s by (destruct (Z.ltb_spec s 0); lia).
  edestruct (readLoop_regular enc regularEnv level i X (partName i inputFile)
               (fun _ => eq_refl) eq_refl (S (Z.to_nat (e - s))) s e
               (mkSt (<[partName i inputFile:=[]]> (st_fs st)) (st_stdout st) (st_stderr st)) [])
    as (cs & Hcat & _ & Hrun).
  { lia. }
  { left. lia. }
  { lia. }
  { apply lookup_insert_eq. }
  exists cs. split.
  - rewrite Hcat. rewrite Z.min_r by lia. apply firstn_all2.
    rewrite length_skipn. lia.
  - unfold bind. rewrite Hrun. cbn. rewrite insert_insert_eq. reflexivity.
Qed.

(** C4 witness: a 2-byte file, segment [(0, 5)]. *)
Lemma C4_zero_read_ends_worker_witness :
  let X0 := [x01; x02] in
  let st0 := mkSt {[ "in" := X0 ]} [] [] in
  let enc0 := fun (_ : Z) (c : list byte) => c in
  (0 <= 0 <= Z.of_nat (length X0) /\ Z.of_nat (length X0) < 5 /\ st_fs st0 !! "in" = Some X0) /\
  exists cs : list (list byte),
    concat cs = skipn (Z.to_nat 0) X0 /\
    compressPart enc0 regularEnv "in" 0 (0, 5) 3 st0
    = Done (partName 0 "in", None)
        (mkSt (<[partName 0 "in" := concat (map (enc0 3) cs)]> (st_fs st0))
              (st_stdout st0) (st_stderr st0)).
Proof.
  intros X0 st0 enc0.
  assert (H1 : 0 <= 0 <= Z.of_nat (length X0)) by (cbn; lia).
  assert (H2 : Z.of_nat (length X0) < 5) by (cbn; lia).
  assert (H3 : st_fs st0 !! "in" = Some X0) by (vm_compute; reflexivity).
  split; [split; [exact H1|split; assumption]|].
  exact (C4_zero_read_ends_worker enc0 "in" 3 X0 0 0 5 st0 H1 H2 H3).
Defined.

(** C5 (order independence): for part files of indices [0 .. T-1] with
    payloads [payload i], presented to [concatenateFiles] in any order (a
    permutation of the indices), with a [sort.Slice] that sorts by index,
    [concatenateFiles] succeeds and the output file holds the payloads
    concatenated in ascending index order, which does not depend on the
    order of presentation. *)
Theorem C5_concatenate_index_order sortSlice
    (Hperm : forall l, Permutation (sortSlice l) l)
    (Hsorted : forall l, Sorted index_le (sortSlice l))
    env inputFile outputFile (T : Z) (payload : Z -> list byte) (order : list Z) st :
  filepath_Base inputFile <> "/" -> T <= 2^63 ->
  env_create env outputFile = None -> env_write env outputFile = None ->
  (forall j, partName j inputFile <> outputFile) ->
  Permutation order (zseq T) ->
  (forall i, 0 <= i < T -> st_fs st !! partName i inputFile = Some (payload i)) ->
  exists st',
    concatenateFiles sortSlice env (map (fun i => partName i inputFile) order) outputFile st
    = Done None st' /\
    st_fs st' !! outputFile = Some (concat (map payload (zseq T))).
Proof.
  intros HB HT Hc Hw Hout Hp Hfiles.
  rewrite (concatenate_parts sortSlice Hperm Hsorted env inputFile outputFile HB
             T payload order st HT Hc Hw Hout Hp Hfiles).
  eexists. split; [reflexivity|]. cbn [st_fs].
  rewrite deleteAll_lookup. destruct (in_dec string_dec outputFile _) as [Hi|_].
  - apply in_map_iff in Hi as (j & Hj & _). exfalso. exact (Hout j Hj).
  - apply lookup_insert_eq.
Qed.

(** C5 witness: two part files presented in the order [1; 0]. *)
Lemma C5_concatenate_index_order_witness :
  let payload := fun i : Z => if i =? 0 then [x01; x02] else [x03] in
  let st0 := mkSt (<[partName 0 "in" := [x01; x02]]> {[ partName 1 "in" := [x03] ]}) [] [] in
  (filepath_Base "in" <> "/" /\ 2 <= 2^63 /\
   env_create regularEnv "out" = None /\ env_write regularEnv "out" = None /\
   (forall j, partName j "in" <> "out") /\ Permutation [1; 0] (zseq 2) /\
   (forall i, 0 <= i < 2 -> st_fs st0 !! partName i "in" = Some (payload i))) /\
  exists st',
    concatenateFiles (merge_sort index_le) regularEnv
      (map (fun i => partName i "in") [1; 0]) "out" st0 = Done None st' /\
    st_fs st' !! "out" = Some (concat (map payload (zseq 2))).
Proof.
  intros payload st0.
  assert (H1 : filepath_Base "in" <> "/") by discriminate.
  assert (H2 : 2 <= 2^63) by lia.
  assert (H3 : forall j, partName j "in" <> "out").
  { intros j E. pose proof (parts_name_long j "in") as Hl. rewrite E in Hl.
    cbn in Hl. lia. }
  assert (H4 : Permutation [1; 0] (zseq 2)) by apply perm_swap.
  assert (H5 : forall i, 0 <= i < 2 -> st_fs st0 !! partName i "in" = Some (payload i)).
  { intros i Hi. assert (i = 0 \/ i = 1) as [-> | ->] by lia; vm_compute; reflexivity. }
  split; [repeat split; assumption || reflexivity|].
  exact (C5_concatenate_index_order (merge_sort index_le) merge_sort_index_perm merge_sort_index_sorted
           regularEnv "in" "out" 2 payload [1; 0] st0 H1 H2 eq_refl eq_refl H3 H4 H5).
Defined.

(** C6 (empty file), counterexample: with two workers an empty file gets two
    empty segments, neither one empty segment nor no segment. *)
Lemma C6_counterexample : divideFileIntoSegments 0 2 = Some [(0, 0); (0, 0)].
Proof. vm_compute. reflexivity. Qed.

(** C6 (empty file), amended: for every [threadCount >= 1] the planner on
    [fileSize = 0] returns [threadCount] empty segments [(0, 0)] (and does
    not fail). *)
Theorem C6_empty_file_plan T :
  1 <= T -> divideFileIntoSegments 0 T = Some (repeat (0, 0) (Z.to_nat T)).
Proof.
  intros HT. rewrite plan_safe by (unfold maxSafeSize, oneMB; lia).
  unfold idealPlan. f_equal. rewrite <- (map_const_seq (0, 0) _ 0).
  apply map_ext. intros i. unfold idealSeg.
  pose proof (cumOf_nonneg (unitsOf 0 / T) (unitsOf 0 mod T) (Z.of_nat i)).
  pose proof (cumOf_nonneg (unitsOf 0 / T) (unitsOf 0 mod T) (Z.of_nat (S i))).
  assert (unitsOf 0 = 0) as HU by reflexivity. rewrite HU in *.
  rewrite Z.div_0_l, Zmod_0_l in * by lia.
  rewrite !Z.min_r by lia. reflexivity.
Qed.

(** C6 witness: two workers. *)
Lemma C6_witness : 1 <= 2 /\ divideFileIntoSegments 0 2 = Some (repeat (0, 0) (Z.to_nat 2)).
Proof. split; [lia|]. apply C6_empty_file_plan. lia. Defined.

(** C7 (1 MiB ends), counterexample: for a 1-byte file and three workers the
    plan is [(0,1); (1,1); (1,1)]: the end of the first segment, which is
    not one of the last two, is 1, not a multiple of 1 MiB. *)
Lemma C7_counterexample :
  divideFileIntoSegments 1 3 = Some [(0, 1); (1, 1); (1, 1)] /\ 1 mod oneMB = 1.
Proof. split; vm_compute; reflexivity. Qed.

(** C7 (1 MiB ends), amended: for [0 <= fileSize <= 2^63 - 2^20] and
    [threadCount >= 1], every segment's end offset is a multiple of 1 MiB or
    equals [fileSize]. *)
Theorem C7_ends_multiple_or_size fs T :
  0 <= fs <= maxSafeSize -> 1 <= T ->
  exists segs, divideFileIntoSegments fs T = Some segs /\
    forall i s e, nth_error segs i = Some (s, e) -> e mod oneMB = 0 \/ e = fs.
Proof.
  intros Hfs HT. exists (idealPlan fs T). split; [apply plan_safe; lia|].
  intros i s e Hp. apply idealPlan_nth in Hp as [_ Hp]; [|lia|exact HT].
  pose proof (idealSeg_end_multiple fs T i) as Hm. rewrite Hp in Hm. exact Hm.
Qed.

(** C7 witness: a file of 5 MiB and 7 bytes, three workers. *)
Lemma C7_witness :
  (0 <= 5 * oneMB + 7 <= maxSafeSize /\ 1 <= 3) /\
  exists segs, divideFileIntoSegments (5 * oneMB + 7) 3 = Some segs /\
    forall i s e, nth_error segs i = Some (s, e) -> e mod oneMB = 0 \/ e = 5 * oneMB + 7.
Proof.
  split; [unfold maxSafeSize, oneMB; lia|].
  apply C7_ends_multiple_or_size; unfold maxSafeSize, oneMB; lia.
Defined.

(** C8 counterexample: a 2-byte file, two workers, reads of worker 1 fail.
    The pipeline prints [failed to read input: read in: input/output error], which
    names no segment, and panics with the fixed message
    [[ERROR] some errors see above]; no error with a segment index is
    returned. *)
Lemma C8_error_printed_without_index :
  exists st', compressFileBlock (fun _ c => c) (merge_sort index_le)
                (failReadEnv 1 "read in: input/output error") "in" "out" 3 2 [0; 1]
                (mkSt {[ "in" := [x01; x02] ]} [] [])
              = Panicked someErrorsMsg st' /\
              st_stdout st' = ["failed to read input: read in: input/output error"].
Proof. eexists. split; vm_compute; reflexivity. Qed.

Lemma plan_negative L T offset :
  divideFileIntoSegments L T = Some offset -> T < 0 -> offset = [].
Proof.
  intros Hp HT. unfold divideFileIntoSegments in Hp.
  destruct (T =? 0); [discriminate|]. injection Hp as <-.
  replace (Z.to_nat T) with O by lia. reflexivity.
Qed.

Lemma runWorkers_nil_offset enc env inputFile level order st results st1 :
  runWorkers enc env inputFile level [] order st = Done results st1 -> results = [].
Proof.
  destruct order as [|i rest]; cbn.
  - unfold ret. congruence.
  - destruct (i <? 0), (Z.to_nat i); discriminate.
Qed.

(** An error in the results of the workers is the error a worker's
    [compressPart] returned. *)
Lemma runWorkers_error_from_worker enc env inputFile level offset order :
  forall st results st1 err,
  runWorkers enc env inputFile level offset order st = Done results st1 ->
  In err (errorsOf results) ->
  exists i seg r sti sti',
    In i order /\ 0 <= i /\ nth_error offset (Z.to_nat i) = Some seg /\
    compressPart enc env inputFile i seg level sti = Done r sti' /\ snd r = Some err.
Proof.
  induction order as [|i rest IH]; intros st results st1 err Hrun Hin.
  - cbn in Hrun. unfold ret in Hrun. injection Hrun as <- _. contradiction.
  - cbn [runWorkers] in Hrun.
    destruct (i <? 0) eqn:Hi; [discriminate|].
    destruct (nth_error offset (Z.to_nat i)) as [seg|] eqn:Hseg; [|discriminate].
    unfold bind in Hrun.
    destruct (compressPart enc env inputFile i seg level st) as [r st2|] eqn:Hcp;
      [|discriminate].
    destruct (runWorkers enc env inputFile level offset rest st2) as [rs st3|] eqn:Hrs;
      [|discriminate].
    unfold ret in Hrun. injection Hrun as <- _.
    unfold errorsOf in Hin. cbn [omap list_omap] in Hin.
    destruct (snd r) as [e|] eqn:Hr.
    + destruct Hin as [<-|Hin].
      * exists i, seg, r, st, st2. apply Z.ltb_ge in Hi.
        repeat split; [left; reflexivity|lia|exact Hseg|exact Hcp|exact Hr].
      * destruct (IH st2 rs st3 err Hrs Hin) as (i' & seg' & r' & sti & sti' & H1 & H2).
        exists i', seg', r', sti, sti'. split; [right; exact H1|exact H2].
    + destruct (IH st2 rs st3 err Hrs Hin) as (i' & seg' & r' & sti & sti' & H1 & H2).
      exists i', seg', r', sti, sti'. split; [right; exact H1|exact H2].
Qed.

(** C8 (failure report), amended: when some worker fails, the pipeline
    prints the first worker error in completion order on standard output and
    then panics with the fixed message [[ERROR] some errors see above]
    ([someErrorsMsg]); it does not return an error to its caller.  The
    printed line is, unchanged, the error that the failing worker's
    [compressPart] returned: the pipeline attaches no segment index of its
    own. *)
Theorem C8_first_error_printed_then_panic enc sortSlice env inputFile outputFile level T order st X offset
    results st1 err errs :
  st_fs st !! inputFile = Some X ->
  divideFileIntoSegments (Z.of_nat (length X)) T = Some offset ->
  runWorkers enc env inputFile level offset order
    (mkSt (st_fs st) (st_stdout st) (st_stderr st ++ ["Working, please wait ..."]))
  = Done results st1 ->
  errorsOf results = err :: errs ->
  compressFileBlock enc sortSlice env inputFile outputFile level T order st
  = Panicked someErrorsMsg (mkSt (st_fs st1) (st_stdout st1 ++ [err]) (st_stderr st1)) /\
  exists i seg r sti sti',
    In i order /\ 0 <= i /\ nth_error offset (Z.to_nat i) = Some seg /\
    compressPart enc env inputFile i seg level sti = Done r sti' /\ snd r = Some err.
Proof.
  intros Hin Hplan Hrun Herr.
  split.
  - destruct (T <? 0) eqn:HT.
    + apply Z.ltb_lt, (plan_negative _ _ _ Hplan) in HT. subst offset.
      apply runWorkers_nil_offset in Hrun. subst results. discriminate.
    + unfold compressFileBlock, bind at 1, get_fs. rewrite Hin, Hplan, HT.
      unfold bind at 1, eprintln, bind at 1. rewrite Hrun. rewrite Herr.
      reflexivity.
  - apply (runWorkers_error_from_worker _ _ _ _ _ _ _ _ _ _ Hrun).
    rewrite Herr. left. reflexivity.
Qed.

(** C8 witness: the run of [C8_error_printed_without_index]. *)
Lemma C8_first_error_printed_then_panic_witness :
  let X0 := [x01; x02] in
  let st0 := mkSt {[ "in" := X0 ]} [] [] in
  let env0 := failReadEnv 1 "read in: input/output error" in
  exists results st1,
    (st_fs st0 !! "in" = Some X0 /\
     divideFileIntoSegments (Z.of_nat (length X0)) 2 = Some [(0, 2); (2, 2)] /\
     runWorkers (fun _ c => c) env0 "in" 3 [(0, 2); (2, 2)] [0; 1]
       (mkSt (st_fs st0) (st_stdout st0) (st_stderr st0 ++ ["Working, please wait ..."]))
     = Done results st1 /\
     errorsOf results = ["failed to read input: read in: input/output error"]) /\
    (compressFileBlock (fun _ c => c) (merge_sort index_le) env0 "in" "out" 3 2 [0; 1] st0
     = Panicked someErrorsMsg
         (mkSt (st_fs st1) (st_stdout st1 ++ ["failed to read input: read in: input/output error"])
               (st_stderr st1)) /\
     exists i seg r sti sti',
       In i [0; 1] /\ 0 <= i /\ nth_error [(0, 2); (2, 2)] (Z.to_nat i) = Some seg /\
       compressPart (fun _ c => c) env0 "in" i seg 3 sti = Done r sti' /\
       snd r = Some "failed to read input: read in: input/output error").
Proof.
  intros X0 st0 env0.
  let v := eval vm_compute in
    (runWorkers (fun _ c => c) env0 "in" 3 [(0, 2); (2, 2)] [0; 1]
       (mkSt (st_fs st0) (st_stdout st0) (st_stderr st0 ++ ["Working, please wait ..."]))) in
  lazymatch v with Done ?a ?b => exists a, b end.
  assert (H1 : st_fs st0 !! "in" = Some X0) by (vm_compute; reflexivity).
  assert (H2 : divideFileIntoSegments (Z.of_nat (length X0)) 2 = Some [(0, 2); (2, 2)])
    by (vm_compute; reflexivity).
  assert (H3 : runWorkers (fun _ c => c) env0 "in" 3 [(0, 2); (2, 2)] [0; 1]
       (mkSt (st_fs st0) (st_stdout st0) (st_stderr st0 ++ ["Working, please wait ..."]))
     = Done [("0-in-output-segment.part0", None);
             ("", Some "failed to read input: read in: input/output error")] _)
    by (vm_compute; reflexivity).
  split; [split; [exact H1 | split; [exact H2 | split; [exact H3 | reflexivity]]]|].
  exact (C8_first_error_printed_then_panic _ _ _ _ _ _ _ _ _ _ _ _ _ _ _ H1 H2 H3 eq_refl).
Defined.




(** C10 (segment bounds).  Fails above the overflow bound: for
    [fileSize = 2^63 - 1] and two workers both segments have negative end
    offsets and the second a negative start. *)
Theorem C10_plan_overflow_negative :
  divideFileIntoSegments (2^63 - 1) 2
  = Some [(0, -4611686018426339328); (-4611686018426339328, -9223372036852678656)].
Proof. vm_compute. reflexivity. Qed.

(** * Further properties *)

(** The round trip of [compressFileBlock_safe] on a 3-byte file with two
    workers completing in the order [1; 0], for the identity codec. *)
Lemma compressFileBlock_safe_witness :
  let X0 := [x01; x02; x03] in
  let st0 := mkSt {[ "in" := X0 ]} [] [] in
  exists st',
    compressFileBlock (fun _ c => c) (merge_sort index_le) regularEnv "in" "out" 3 2
      [1; 0] st0 = Done None st' /\
    (exists Y, st_fs st' !! "out" = Some Y /\ decompressFile Some Y = Some X0) /\
    (forall j, 0 <= j < 2 -> st_fs st' !! partName j "in" = None).
Proof.
  intros X0 st0.
  assert (Hshort : forall j f, (String.length f < 20)%nat -> partName j "in" <> f).
  { intros j f Hf E. pose proof (parts_name_long j "in") as Hl. rewrite E in Hl. lia. }
  apply (compressFileBlock_safe (fun _ c => c) Some eq_refl
           (fun lvl c r => eq_refl) (merge_sort index_le) merge_sort_index_perm
           merge_sort_index_sorted "in" "out" 3 2 [1; 0]).
  - lia.
  - discriminate.
  - intros j. apply Hshort. cbn. lia.
  - intros j. apply Hshort. cbn. lia.
  - apply perm_swap.
  - unfold maxSafeSize, oneMB. cbn. lia.
  - vm_compute. reflexivity.
Defined.

(** Witness of [plan_partition_safe]: a file of 5 MiB and 7 bytes, three
    workers. *)
Lemma plan_partition_safe_witness :
  (0 <= 5 * oneMB + 7 <= maxSafeSize /\ 1 <= 3) /\
  exists segs, divideFileIntoSegments (5 * oneMB + 7) 3 = Some segs /\
    length segs = Z.to_nat 3 /\
    (forall i s e, nth_error segs i = Some (s, e) -> (0 <= s <= e /\ e <= 5 * oneMB + 7)) /\
    (forall i s e s' e', nth_error segs i = Some (s, e) ->
                         nth_error segs (S i) = Some (s', e') -> s' = e) /\
    (exists e0, nth_error segs 0 = Some (0, e0)) /\
    (exists sl, nth_error segs (Z.to_nat 3 - 1) = Some (sl, 5 * oneMB + 7)).
Proof.
  split; [unfold maxSafeSize, oneMB; lia|].
  apply plan_partition_safe; unfold maxSafeSize, oneMB; lia.
Defined.

(** ** [divmod] *)

Lemma quot_range n d : -2^63 <= n < 2^63 -> -2^63 <= d < 2^63 -> d <> 0 ->
  ~ (n = -2^63 /\ d = -1) -> -2^63 <= Z.quot n d < 2^63.
Proof.
  intros Hn Hd Hz Hov.
  pose proof (Z.quot_rem' n d) as Heq.
  pose proof (Z.rem_bound_abs n d Hz) as Hb.
  pose proof (Z.rem_sign_mul n d Hz) as Hs.
  set (q := Z.quot n d) in *. set (r := Z.rem n d) in *.
  destruct (Z.lt_trichotomy d (-1)) as [Hd1|[Hd1|Hd1]].
  - nia.
  - subst d. assert (n <> -2^63) by tauto. nia.
  - assert (1 <= d) by lia. nia.
Qed.

(** On [int64] operands, [divmod] panics exactly on a zero denominator;
    otherwise it returns an [int64] quotient truncated toward zero and a
    remainder smaller than the denominator in absolute value with the
    sign of the numerator, so that [q * d + r = n], except for
    [MinInt64 / -1], which gives [(MinInt64, 0)]. *)
Theorem divmod_int64 n d :
  -2^63 <= n < 2^63 -> -2^63 <= d < 2^63 ->
  (d = 0 -> divmod n d = None) /\
  (d <> 0 -> exists q r, divmod n d = Some (q, r) /\ -2^63 <= q < 2^63 /\
     Z.abs r < Z.abs d /\ 0 <= r * n /\
     (if (n =? -2^63) && (d =? -1) then q = -2^63 /\ r = 0 else q * d + r = n)).
Proof.
  intros Hn Hd. split; [intros ->; reflexivity|]. intros Hz.
  unfold divmod. replace (d =? 0) with false by (symmetry; apply Z.eqb_neq, Hz).
  do 2 eexists. split; [reflexivity|]. unfold i64quot, i64rem.
  destruct (Z.eqb_spec n (-2^63)) as [->|Hn'], (Z.eqb_spec d (-1)) as [->|Hd'];
    cbn [andb].
  - vm_compute. repeat split; congruence.
  - rewrite wrap64_id by (apply quot_range; lia).
    pose proof (Z.quot_rem' (-2^63) d). pose proof (Z.rem_bound_abs (-2^63) d Hz).
    pose proof (Z.rem_sign_mul (-2^63) d Hz). pose proof (quot_range (-2^63) d).
    repeat split; lia.
  - rewrite wrap64_id by (apply quot_range; lia).
    pose proof (Z.quot_rem' n (-1)). pose proof (Z.rem_bound_abs n (-1) Hz).
    pose proof (Z.rem_sign_mul n (-1) Hz). pose proof (quot_range n (-1)).
    repeat split; lia.
  - rewrite wrap64_id by (apply quot_range; lia).
    pose proof (Z.quot_rem' n d). pose proof (Z.rem_bound_abs n d Hz).
    pose proof (Z.rem_sign_mul n d Hz). pose proof (quot_range n d).
    repeat split; lia.
Qed.

(** Witness of [divmod_int64]: [-7 / 2] is [(-3, -1)]. *)
Lemma divmod_int64_witness :
  (-2^63 <= -7 < 2^63 /\ -2^63 <= 2 < 2^63) /\ divmod (-7) 2 = Some (-3, -1) /\
  ((2 = 0 -> divmod (-7) 2 = None) /\
   (2 <> 0 -> exists q r, divmod (-7) 2 = Some (q, r) /\ -2^63 <= q < 2^63 /\
      Z.abs r < Z.abs 2 /\ 0 <= r * -7 /\
      (if (-7 =? -2^63) && (2 =? -1) then q = -2^63 /\ r = 0 else q * 2 + r = -7))).
Proof.
  split; [lia|]. split; [vm_compute; reflexivity|]. apply divmod_int64; lia.
Defined.

(** ** [main]: failures before any compression *)

(** [main] opens its input before it creates its output: when the input
    file is missing it prints the error and exits with status 1 without
    creating the output file, whatever the flags.  In block mode ([-b]
    without [-d]) with no [-o], it panics before touching any file, with
    or without an input file argument. *)
Theorem main_early_failures enc sortSlice env order zE zB zD fl args st :
  (forall a rest, args = a :: rest -> st_fs st !! a = None ->
     main enc sortSlice env order zE zB zD fl args st
     = Done 1 (mkSt (st_fs st)
                 (st_stdout st ++ ["Failed to open input file: open " +++ a
                                   +++ ": no such file or directory"])
                 (st_stderr st))) /\
  (fl_d fl = false -> fl_b fl = true -> fl_o fl = "" ->
   (forall a rest, args = a :: rest -> is_Some (st_fs st !! a)) ->
     main enc sortSlice env order zE zB zD fl args st = Panicked blockModeMsg st).
Proof.
  split.
  - intros a rest -> Ha. unfold main, bind at 1, get_fs. rewrite Ha. reflexivity.
  - intros Hd Hb Ho Hargs.
    assert (Hout : openOutput env fl st = Done (inl stdoutName) st).
    { unfold openOutput. rewrite Ho. cbn. rewrite andb_false_r. reflexivity. }
    assert (Hrest : forall input : string,
      (let* created := openOutput env fl in
       match created with
       | inr err => let* _ := println ("Failed to create output file: " +++ err) in ret 1
       | inl output =>
           if fl_d fl then
             let* r := decompressFile_io env zD input output in
             match r with
             | Some e => let* _ := println ("Decompression failed: " +++ e) in ret 1
             | None => ret 0
             end
           else if fl_b fl then
             if (Z.of_nat (length args) <? 0) || String.eqb (fl_o fl) "" then
               go_panic blockModeMsg
             else
               let inputFile := match args with [] => "" | a :: _ => a end in
               let* r := compressFileBlock enc sortSlice env inputFile (fl_o fl)
                           (fl_l fl) (fl_T fl) order in
               match r with
               | Some e => let* _ := println ("Block mode compression failed: " +++ e) in ret 1
               | None => ret 0
               end
           else
             let* r := compressStream env zE zB input output (fl_l fl) in
             match r with
             | Some e => let* _ := println ("Stream mode compression failed: " +++ e) in ret 1
             | None => ret 0
             end
       end) st = Panicked blockModeMsg st).
    { intros input. unfold bind at 1. rewrite Hout, Hd, Hb, Ho.
      rewrite orb_true_r. reflexivity. }
    unfold main, bind at 1, get_fs. destruct args as [|a rest].
    + apply Hrest.
    + destruct (Hargs a rest eq_refl) as [X HX]. rewrite HX. apply Hrest.
Qed.

Lemma divide_zero fs : divideFileIntoSegments fs 0 = None.
Proof. reflexivity. Qed.

Lemma openOutput_run env fl st :
  (fl_c fl = false -> fl_o fl <> "" -> env_create env (fl_o fl) = None) ->
  openOutput env fl st
  = if negb (fl_c fl) && negb (String.eqb (fl_o fl) "") then
      Done (inl (fl_o fl)) (mkSt (<[fl_o fl := []]> (st_fs st)) (st_stdout st) (st_stderr st))
    else Done (inl stdoutName) st.
Proof.
  intros Hc. unfold openOutput.
  destruct (fl_c fl) eqn:Ec; [reflexivity|].
  destruct (String.eqb_spec (fl_o fl) "") as [Eo|Eo]; [reflexivity|].
  cbn. rewrite Hc by (reflexivity || exact Eo). reflexivity.
Qed.

(** The guard of block mode does not catch a missing input argument
    ([flag.NArg() < 0] never holds): with [-b] and [-o out] but no input
    file, [main] truncates [out] (unless [-c] is given), then fails on
    [os.Stat("")] and exits with status 1. *)
Theorem main_block_without_input enc sortSlice env order zE zB zD fl out st :
  fl_d fl = false -> fl_b fl = true -> fl_o fl = out -> out <> "" ->
  st_fs st !! "" = None -> (fl_c fl = false -> env_create env out = None) ->
  main enc sortSlice env order zE zB zD fl [] st
  = Done 1 (mkSt (if fl_c fl then st_fs st else <[out := []]> (st_fs st))
                 (st_stdout st ++ ["Block mode compression failed: stat : no such file or directory"])
                 (st_stderr st)).
Proof.
  intros Hd Hb Ho Hne Hempty Hc.
  unfold main, bind at 1, get_fs, bind at 1.
  rewrite openOutput_run by (intros; subst; auto).
  rewrite Ho. destruct (String.eqb_spec out "") as [|_]; [contradiction|].
  destruct (fl_c fl) eqn:Ec; cbn [negb andb]; rewrite ?Hd, ?Hb, ?Ho;
    destruct (String.eqb_spec out "") as [|_]; try contradiction;
    replace (Z.of_nat (length _) <? 0) with false by (symmetry; apply Z.ltb_ge; lia);
    cbn [orb];
    unfold bind at 1, compressFileBlock, bind at 1, get_fs; cbn [st_fs].
  - rewrite Hempty. reflexivity.
  - rewrite lookup_insert_ne by congruence. rewrite Hempty. reflexivity.
Qed.

(** [-b -T 0]: the planner divides by zero, so [main] panics, after
    truncating the [-o] file unless [-c] is given, before printing
    anything or writing a part file. *)
Theorem main_block_zero_threads enc sortSlice env order zE zB zD fl a rest out X st :
  fl_d fl = false -> fl_b fl = true -> fl_T fl = 0 -> fl_o fl = out -> out <> "" ->
  st_fs st !! a = Some X -> (fl_c fl = false -> env_create env out = None) ->
  main enc sortSlice env order zE zB zD fl (a :: rest) st
  = Panicked "runtime error: integer divide by zero"
      (mkSt (if fl_c fl then st_fs st else <[out := []]> (st_fs st))
            (st_stdout st) (st_stderr st)).
Proof.
  intros Hd Hb HT Ho Hne Ha Hc.
  unfold main, bind at 1, get_fs. rewrite Ha. unfold bind at 1.
  rewrite openOutput_run by (intros; subst; auto).
  rewrite Ho. destruct (String.eqb_spec out "") as [|_]; [contradiction|].
  destruct (fl_c fl) eqn:Ec; cbn [negb andb]; rewrite ?Hd, ?Hb, ?Ho;
    destruct (String.eqb_spec out "") as [|_]; try contradiction;
    replace (Z.of_nat (length _) <? 0) with false by (symmetry; apply Z.ltb_ge; lia);
    cbn [orb];
    unfold bind at 1, compressFileBlock, bind at 1, get_fs; cbn [st_fs]; rewrite HT.
  - rewrite Ha, divide_zero. cbv iota. rewrite <- st_eta. reflexivity.
  - destruct (decide (a = out)) as [->|Hao].
    + rewrite lookup_insert_eq, divide_zero. reflexivity.
    + rewrite lookup_insert_ne by congruence. rewrite Ha, divide_zero. reflexivity.
Qed.

(** ** [main]: [-o] naming the input file *)

Lemma plan_empty T :
  1 <= T -> divideFileIntoSegments 0 T = Some (repeat (0, 0) (Z.to_nat T)).
Proof.
  intros HT. rewrite plan_safe by (unfold maxSafeSize, oneMB; lia).
  unfold idealPlan. f_equal. rewrite <- (map_const_seq (0, 0) _ 0).
  apply map_ext. intros i. unfold idealSeg.
  pose proof (cumOf_nonneg (unitsOf 0 / T) (unitsOf 0 mod T) (Z.of_nat i)).
  pose proof (cumOf_nonneg (unitsOf 0 / T) (unitsOf 0 mod T) (Z.of_nat (S i))).
  assert (unitsOf 0 = 0) as HU by reflexivity. rewrite HU in *.
  rewrite Z.div_0_l, Zmod_0_l in * by lia.
  rewrite !Z.min_r by lia. reflexivity.
Qed.

Lemma nth_error_repeat_lt {A} (a : A) (n k : nat) :
  (k < n)%nat -> nth_error (repeat a n) k = Some a.
Proof.
  revert k. induction n as [|n IH]; intros k Hk; [lia|].
  destruct k; cbn; [reflexivity|]. apply IH. lia.
Qed.

(** A worker on an empty input file creates an empty part file. *)
Lemma compressPart_empty enc inputFile i level st :
  st_fs st !! inputFile = Some [] ->
  compressPart enc regularEnv inputFile i (0, 0) level st
  = Done (partName i inputFile, None)
      (mkSt (<[partName i inputFile := []]> (st_fs st)) (st_stdout st) (st_stderr st)).
Proof.
  intros Hin. unfold compressPart, bind at 1, get_fs. rewrite Hin. reflexivity.
Qed.

Lemma runWorkers_empty enc inputFile level T order st :
  st_fs st !! inputFile = Some [] -> (forall j, partName j inputFile <> inputFile) ->
  Forall (fun i => 0 <= i < T) order ->
  exists fs',
    runWorkers enc regularEnv inputFile level (repeat (0, 0) (Z.to_nat T)) order st
    = Done (map (fun i => (partName i inputFile, None)) order)
           (mkSt fs' (st_stdout st) (st_stderr st)) /\
    forall k, fs' !! k = if in_dec string_dec k (map (fun i => partName i inputFile) order)
                         then Some [] else st_fs st !! k.
Proof.
  intros Hin Hinp. revert st Hin. induction order as [|i rest IH]; intros st Hin Hr.
  - exists (st_fs st). split; [unfold ret; rewrite <- st_eta; reflexivity|].
    intros k. reflexivity.
  - inversion Hr as [|? ? Hi Hr']; subst.
    cbn [runWorkers]. replace (i <? 0) with false by (symmetry; apply Z.ltb_ge; lia).
    rewrite nth_error_repeat_lt by lia.
    unfold bind at 1. rewrite compressPart_empty by exact Hin.
    set (st1 := mkSt (<[partName i inputFile := []]> (st_fs st)) (st_stdout st) (st_stderr st)).
    destruct (IH st1) as (fs' & Hrun & Hfs'); [|exact Hr'|].
    { cbn. rewrite lookup_insert_ne by (apply Hinp). exact Hin. }
    exists fs'. split.
    + unfold bind. rewrite Hrun. reflexivity.
    + intros k. rewrite Hfs'. cbn [map].
      destruct (in_dec string_dec k (map (fun i0 => partName i0 inputFile) rest)) as [Hk|Hk];
      destruct (in_dec string_dec k (partName i inputFile :: map (fun i0 => partName i0 inputFile) rest)) as [Hk'|Hk'];
      try reflexivity.
      * exfalso. apply Hk'. right. exact Hk.
      * cbn. destruct Hk' as [<-|Hk']; [apply lookup_insert_eq|contradiction].
      * cbn. rewrite lookup_insert_ne; [reflexivity|]. intros E. apply Hk'. left. exact E.
Qed.

Lemma concat_map_nil {A B} (l : list A) : concat (map (fun _ => @nil B) l) = [].
Proof. induction l; [reflexivity|exact IHl]. Qed.

(** Block mode with [-o] naming the input file [a] (and no [-c]): [main]
    truncates [a] when it creates its output, before the pipeline reads
    it, so whatever [a] held, the pipeline compresses an empty file, [a]
    ends up empty, the part files are removed and [main] exits with
    status 0. *)
Theorem main_block_output_is_input enc sortSlice
    (Hperm : forall l, Permutation (sortSlice l) l)
    (Hsorted : forall l, Sorted index_le (sortSlice l))
    order zE zB zD fl a rest X st :
  fl_d fl = false -> fl_b fl = true -> fl_c fl = false -> fl_o fl = a -> a <> "" ->
  1 <= fl_T fl <= 2^63 - 1 -> Permutation order (zseq (fl_T fl)) ->
  filepath_Base a <> "/" -> (forall j, partName j a <> a) ->
  st_fs st !! a = Some X ->
  main enc sortSlice regularEnv order zE zB zD fl (a :: rest) st
  = Done 0 (mkSt (deleteAll (map (fun i => partName i a) (zseq (fl_T fl)))
                            (<[a := []]> (st_fs st)))
                 (st_stdout st) (st_stderr st ++ ["Working, please wait ..."])).
Proof.
  intros Hd Hb Hc Ho Hne HT Horder HB Hinp Ha.
  set (T := fl_T fl) in *.
  assert (Hr : Forall (fun i => 0 <= i < T) order).
  { apply List.Forall_forall. intros i Hi.
    apply (Permutation_in _ Horder), in_zseq in Hi. exact Hi. }
  unfold main, bind at 1, get_fs. rewrite Ha. unfold bind at 1.
  rewrite openOutput_run by (intros; rewrite Ho; reflexivity).
  rewrite Hc, Ho. destruct (String.eqb_spec a "") as [|_]; [contradiction|].
  cbn [negb andb]. rewrite Hd, Hb, ?Ho.
  destruct (String.eqb_spec a "") as [|_]; [contradiction|].
  replace (Z.of_nat (length _) <? 0) with false by (symmetry; apply Z.ltb_ge; lia).
  cbn [orb].
  unfold bind at 1, compressFileBlock, bind at 1, get_fs. cbn [st_fs].
  rewrite lookup_insert_eq. cbn [length Z.of_nat]. fold T.
  rewrite plan_empty by lia. rewrite (proj2 (Z.ltb_ge T 0)) by lia. cbn iota.
  unfold bind at 1, eprintln. cbn [st_fs st_stdout st_stderr].
  set (st2 := mkSt (<[a:=[]]> (st_fs st)) (st_stdout st)
                   (st_stderr st ++ ["Working, please wait ..."])).
  destruct (runWorkers_empty enc a (fl_l fl) T order st2) as (fs' & Hrun & Hfs');
    [apply lookup_insert_eq|exact Hinp|exact Hr|].
  unfold bind at 1. rewrite Hrun. rewrite errorsOf_ok, map_map. cbn [fst].
  unfold bind at 1.
  rewrite (concatenate_parts sortSlice Hperm Hsorted regularEnv a a HB
             T (fun _ => []) order _ ltac:(lia) eq_refl eq_refl Hinp Horder).
  2:{ intros i Hi. cbn [st_fs]. rewrite Hfs'.
      destruct (in_dec _ _ _) as [_|Hn]; [reflexivity|]. exfalso. apply Hn.
      apply in_map_iff. exists i. split; [reflexivity|].
      apply (Permutation_in _ (Permutation_sym Horder)), in_zseq, Hi. }
  unfold ret. cbn [st_fs st_stdout st_stderr]. f_equal. f_equal.
  apply map_eq. intros k. rewrite !deleteAll_lookup.
  destruct (in_dec string_dec k _) as [_|Hk]; [reflexivity|].
  rewrite concat_map_nil.
  destruct (decide (k = a)) as [->|Hka]; [rewrite !lookup_insert_eq; reflexivity|].
  rewrite !lookup_insert_ne by congruence. rewrite Hfs'.
  destruct (in_dec _ _ _) as [Hk'|_].
  - exfalso. apply Hk. apply in_map_iff in Hk' as (j & <- & Hj).
    apply in_map_iff. exists j. split; [reflexivity|].
    apply (Permutation_in _ Horder), Hj.
  - cbn. rewrite lookup_insert_ne by congruence. reflexivity.
Qed.

(** ** [compressFileBlock] when the output file cannot be created *)

Lemma readLoop_env_ext enc e1 e2 fuel lvl idx X out pos e st :
  (forall p, env_read e1 idx X p = env_read e2 idx X p) ->
  env_write e1 out = env_write e2 out ->
  readLoop enc e1 fuel lvl idx X out pos e st = readLoop enc e2 fuel lvl idx X out pos e st.
Proof.
  intros Hr Hw. revert pos st. induction fuel as [|fuel IH]; intros pos st; [reflexivity|].
  cbn [readLoop]. rewrite Hr, Hw.
  destruct (env_read e2 idx X pos) as [n [| |m]]; try reflexivity;
  destruct (n =? 0); try reflexivity; destruct (_ || _); try reflexivity;
  destruct (env_write e2 out); try reflexivity;
  unfold bind; destruct (append_file _ _ st); try reflexivity;
  destruct (_ =? _); try reflexivity; destruct (_ <? _); try reflexivity; apply IH.
Qed.

Lemma compressPart_env_ext enc e1 e2 inputFile i seg lvl st :
  (forall X p, env_read e1 i X p = env_read e2 i X p) ->
  env_create e1 (partName i inputFile) = env_create e2 (partName i inputFile) ->
  env_write e1 (partName i inputFile) = env_write e2 (partName i inputFile) ->
  compressPart enc e1 inputFile i seg lvl st = compressPart enc e2 inputFile i seg lvl st.
Proof.
  intros Hr Hc Hw. cbv [compressPart bind get_fs create_file put_fs].
  destruct (st_fs st !! inputFile) as [X|]; [|reflexivity].
  rewrite Hc. destruct (env_create e2 _); [reflexivity|].
  destruct seg as [s e].
  rewrite (readLoop_env_ext enc e1 e2) by (exact (Hr X) || exact Hw). reflexivity.
Qed.

Lemma runWorkers_env_ext enc e1 e2 inputFile lvl offset order st :
  (forall i, In i order ->
     (forall X p, env_read e1 i X p = env_read e2 i X p) /\
     env_create e1 (partName i inputFile) = env_create e2 (partName i inputFile) /\
     env_write e1 (partName i inputFile) = env_write e2 (partName i inputFile)) ->
  runWorkers enc e1 inputFile lvl offset order st
  = runWorkers enc e2 inputFile lvl offset order st.
Proof.
  revert st. induction order as [|i rest IH]; intros st H; [reflexivity|].
  cbn [runWorkers]. destruct (if i <? 0 then None else nth_error offset (Z.to_nat i));
    [|reflexivity].
  destruct (H i (or_introl eq_refl)) as (Hr & Hc & Hw).
  unfold bind at 1 3. rewrite (compressPart_env_ext enc e1 e2) by assumption.
  destruct (compressPart enc e2 inputFile i _ lvl st); [|reflexivity].
  unfold bind. rewrite IH by (intros j Hj; apply H; right; exact Hj). reflexivity.
Qed.

Lemma parseNames_partNames inputFile order :
  filepath_Base inputFile <> "/" -> Forall (fun i => 0 <= i <= 2^63 - 1) order ->
  exists l, parseNames (map (fun i => partName i inputFile) order) = (None, l).
Proof.
  intros HB. induction order as [|i order IH]; intros Hr; [eexists; reflexivity|].
  inversion Hr as [|? ? Hi Hr']; subst.
  cbn [map parseNames].
  destruct (parse_partName i inputFile Hi HB) as (rest & Hs & Ha).
  rewrite Hs, Ha. destruct (IH Hr') as [l Hl]. rewrite Hl. eexists. reflexivity.
Qed.

(** If the output file cannot be created, [compressFileBlock] still
    returns success below the overflow bound: the error of
    [concatenateFiles] is dropped, the output file is not written and
    every part file is left in place. *)
Lemma compressFileBlock_create_fails enc sortSlice inputFile outputFile msg level T order X st :
  1 <= T <= 2^63 - 1 -> Permutation order (zseq T) ->
  filepath_Base inputFile <> "/" -> (forall j, partName j inputFile <> inputFile) ->
  (forall j, partName j inputFile <> outputFile) ->
  Z.of_nat (length X) <= maxSafeSize -> st_fs st !! inputFile = Some X ->
  exists fs',
    compressFileBlock enc sortSlice (createFailEnv outputFile msg) inputFile outputFile level T
      order st
    = Done None (mkSt fs' (st_stdout st) (st_stderr st ++ ["Working, please wait ..."])) /\
    fs' !! outputFile = st_fs st !! outputFile /\
    (forall j, 0 <= j < T -> is_Some (fs' !! partName j inputFile)).
Proof.
  intros HT Horder HB Hinp Hout HL Hin.
  assert (Hnd : NoDup order) by (rewrite Horder; apply NoDup_zseq).
  assert (Hr : Forall (fun i => 0 <= i < T) order).
  { apply List.Forall_forall. intros i Hi.
    apply (Permutation_in _ Horder), in_zseq in Hi. exact Hi. }
  unfold compressFileBlock, bind at 1, get_fs. rewrite Hin.
  rewrite plan_safe by lia. rewrite (proj2 (Z.ltb_ge T 0)) by lia. cbn iota.
  unfold bind at 1, eprintln.
  set (st1 := mkSt (st_fs st) (st_stdout st) (st_stderr st ++ ["Working, please wait ..."])).
  unfold bind at 1.
  rewrite (runWorkers_env_ext enc (createFailEnv outputFile msg) regularEnv).
  2:{ intros i _. split; [reflexivity|]. split; [|reflexivity].
      cbn. destruct (String.eqb_spec (partName i inputFile) outputFile) as [E|_];
        [exfalso; exact (Hout i E)|reflexivity]. }
  edestruct (runWorkers_plan enc inputFile level X T) with (order := order) (st := st1)
    as (payload & fs' & Hpl & Hrun & Hfs' & Hkeep);
    try (exact HL || exact HB || exact Hinp || exact Hin || exact Hnd || exact Hr || lia).
  rewrite Hrun. rewrite errorsOf_ok, map_map. cbn [fst].
  destruct (parseNames_partNames inputFile order HB) as [l Hl].
  { apply List.Forall_forall. intros i Hi. rewrite List.Forall_forall in Hr.
    specialize (Hr i Hi). lia. }
  exists fs'. split; [|split].
  - unfold bind, concatenateFiles. rewrite Hl. cbn [env_create createFailEnv].
    rewrite String.eqb_refl. reflexivity.
  - apply Hkeep. intros j _. apply Hout.
  - intros j Hj. rewrite Hfs'; [eexists; reflexivity|].
    apply (Permutation_in _ (Permutation_sym Horder)), in_zseq, Hj.
Qed.

(** With [-b -c -o out], [main] does not create [out] itself; when [out]
    cannot be created, [concatenateFiles] fails, its error is dropped and
    [main] exits with status 0 having printed nothing on standard output:
    [out] is not written and every part file stays in the working
    directory. *)
Theorem main_block_stdout_flag_no_output enc sortSlice zE zB zD fl inputFile rest out msg
    order X st :
  fl_d fl = false -> fl_b fl = true -> fl_c fl = true -> fl_o fl = out -> out <> "" ->
  1 <= fl_T fl <= 2^63 - 1 -> Permutation order (zseq (fl_T fl)) ->
  filepath_Base inputFile <> "/" -> (forall j, partName j inputFile <> inputFile) ->
  (forall j, partName j inputFile <> out) ->
  Z.of_nat (length X) <= maxSafeSize -> st_fs st !! inputFile = Some X ->
  exists st',
    main enc sortSlice (createFailEnv out msg) order zE zB zD fl (inputFile :: rest) st
    = Done 0 st' /\
    st_fs st' !! out = st_fs st !! out /\ st_stdout st' = st_stdout st /\
    (forall j, 0 <= j < fl_T fl -> is_Some (st_fs st' !! partName j inputFile)).
Proof.
  intros Hd Hb Hc Ho Hne HT Horder HB Hinp Hout HL Hin.
  destruct (compressFileBlock_create_fails enc sortSlice inputFile out msg (fl_l fl)
              (fl_T fl) order X st HT Horder HB Hinp Hout HL Hin) as (fs' & Hrun & Ho' & Hp).
  unfold main, bind at 1, get_fs. rewrite Hin. unfold bind at 1, openOutput.
  rewrite Hc. cbn [negb andb]. rewrite Hd, Hb, Ho.
  destruct (String.eqb_spec out "") as [|_]; [contradiction|].
  replace (Z.of_nat (length _) <? 0) with false by (symmetry; apply Z.ltb_ge; lia).
  cbn [orb]. unfold ret at 1. cbv beta iota. unfold bind at 1. rewrite Hrun.
  eexists. split; [reflexivity|]. cbn. split; [exact Ho'|]. split; [reflexivity|exact Hp].
Qed.

(** ** [main]: stream mode and decompression *)

(** Stream mode with [-o] naming the input file [a] (and no [-c]):
    [main] truncates [a] before [compressStream] reads it, so [a] ends up
    holding the compressed stream of the empty input, whatever it held,
    and [main] exits with status 0.  When the writes to [a] fail, nothing
    is written, which is that stream when the library writes nothing for
    an empty input. *)
Theorem main_stream_output_is_input enc sortSlice env order zE zB zD fl a rest X st :
  fl_d fl = false -> fl_b fl = false -> fl_c fl = false -> fl_o fl = a -> a <> "" ->
  env_create env a = None -> st_fs st !! a = Some X ->
  (env_write env a = None \/ zE (fl_l fl) [] = []) ->
  main enc sortSlice env order zE zB zD fl (a :: rest) st
  = Done 0 (mkSt (<[a := zE (fl_l fl) []]> (st_fs st)) (st_stdout st) (st_stderr st)).
Proof.
  intros Hd Hb Hc Ho Hne Hcr Ha Hw.
  unfold main, bind at 1, get_fs. rewrite Ha. unfold bind at 1.
  rewrite openOutput_run by (intros; rewrite Ho; exact Hcr).
  rewrite Hc, Ho. destruct (String.eqb_spec a "") as [|_]; [contradiction|].
  cbn [negb andb]. rewrite Hd, Hb.
  unfold bind at 1, compressStream, bind at 1, get_fs. cbn [st_fs].
  rewrite lookup_insert_eq. cbn [default length Z.of_nat].
  destruct (env_write env a) as [m|] eqn:Hwa.
  - destruct Hw as [Hw|Hw]; [discriminate|]. rewrite Hw.
    unfold ret. reflexivity.
  - unfold bind at 1, append_file, bind, get_fs, put_fs. cbn [st_fs st_stdout st_stderr].
    rewrite lookup_insert_eq. cbn [default app].
    rewrite insert_insert_eq. reflexivity.
Qed.

(** In stream mode [-c] wins over [-o]: the compressed stream of the input
    file goes to standard output and the [-o] file is neither created nor
    written.  [main] exits with status 0 when the writes to standard output
    succeed.  When they fail, nothing is written, and [main] prints the
    write error and exits with status 1 if the input holds a whole block of
    the encoder, and exits with status 0 otherwise. *)
Theorem main_stream_stdout_flag enc sortSlice env order zE zB zD fl a rest X st :
  fl_d fl = false -> fl_b fl = false -> fl_c fl = true -> st_fs st !! a = Some X ->
  (env_write env stdoutName = None ->
   main enc sortSlice env order zE zB zD fl (a :: rest) st
   = Done 0 (mkSt (<[stdoutName := default [] (st_fs st !! stdoutName) ++ zE (fl_l fl) X]>
                   (st_fs st)) (st_stdout st) (st_stderr st))) /\
  (forall m, env_write env stdoutName = Some m ->
   Zpos (zB (fl_l fl)) <= Z.of_nat (length X) ->
   main enc sortSlice env order zE zB zD fl (a :: rest) st
   = Done 1 (mkSt (st_fs st)
                  (st_stdout st ++ ["Stream mode compression failed: failed to compress data: "
                                    +++ m])
                  (st_stderr st))) /\
  (forall m, env_write env stdoutName = Some m ->
   Z.of_nat (length X) < Zpos (zB (fl_l fl)) ->
   main enc sortSlice env order zE zB zD fl (a :: rest) st = Done 0 st).
Proof.
  intros Hd Hb Hc Ha.
  assert (Hm : main enc sortSlice env order zE zB zD fl (a :: rest) st
               = (let* r := compressStream env zE zB a stdoutName (fl_l fl) in
                  match r with
                  | Some e => let* _ := println ("Stream mode compression failed: " +++ e) in
                              ret 1
                  | None => ret 0
                  end) st).
  { unfold main, bind at 1, get_fs. rewrite Ha. unfold bind at 1, openOutput.
    rewrite Hc. cbn [negb andb]. unfold ret at 1. cbv beta iota. rewrite Hd, Hb.
    reflexivity. }
  split; [|split].
  - intros Hw. rewrite Hm.
    unfold bind at 1, compressStream, bind at 1, get_fs. rewrite Ha, Hw.
    unfold bind at 1, append_file, bind, get_fs, put_fs. cbn [st_fs st_stdout st_stderr].
    reflexivity.
  - intros m Hw Hlen. rewrite Hm.
    unfold bind at 1, compressStream, bind at 1, get_fs. rewrite Ha, Hw.
    change (default [] (Some X)) with X. rewrite (proj2 (Z.leb_le _ _) Hlen).
    reflexivity.
  - intros m Hw Hlen. rewrite Hm.
    unfold bind at 1, compressStream, bind at 1, get_fs. rewrite Ha, Hw.
    change (default [] (Some X)) with X. rewrite (proj2 (Z.leb_gt _ _) Hlen).
    destruct st. reflexivity.
Qed.

Lemma decompressFile_io_run env zD input output st Y :
  env_write env output = None ->
  st_fs st !! input = Some Y ->
  decompressFile_io env zD input output st
  = Done (snd (zD Y) ≫= fun m => Some ("failed to decompress data: " +++ m))
      (mkSt (<[output := default [] (st_fs st !! output) ++ fst (zD Y)]> (st_fs st))
            (st_stdout st) (st_stderr st)).
Proof.
  intros Hw HY. unfold decompressFile_io, bind at 1, get_fs. rewrite HY.
  change (default [] (Some Y)) with Y. rewrite Hw.
  destruct (zD Y) as [D [m|]]; reflexivity.
Qed.

(** Stream round trip through [main]: compressing the file [f] with
    [-o c] and then decompressing [c] with [-d -o g], the writes to [c] and
    [g] succeeding, exits with status 0 twice and leaves [g] holding the
    contents of [f], for a zstd library whose decoder inverts its
    encoder. *)
Theorem main_stream_round_trip enc sortSlice env order zE zB zD fl1 fl2 f c g rest1 rest2 X st :
  (forall lvl Y, zD (zE lvl Y) = (Y, None)) ->
  fl_d fl1 = false -> fl_b fl1 = false -> fl_c fl1 = false -> fl_o fl1 = c ->
  fl_d fl2 = true -> fl_c fl2 = false -> fl_o fl2 = g ->
  c <> "" -> g <> "" -> f <> c -> g <> c ->
  env_create env c = None -> env_create env g = None ->
  env_write env c = None -> env_write env g = None ->
  st_fs st !! f = Some X ->
  exists st1 st2,
    main enc sortSlice env order zE zB zD fl1 (f :: rest1) st = Done 0 st1 /\
    main enc sortSlice env order zE zB zD fl2 (c :: rest2) st1 = Done 0 st2 /\
    st_fs st2 !! g = Some X.
Proof.
  intros Hinv Hd1 Hb1 Hc1 Ho1 Hd2 Hc2 Ho2 Hcn Hgn Hfc Hgc Hcc Hcg Hwc Hwg Hf.
  set (st1 := mkSt (<[c := zE (fl_l fl1) X]> (st_fs st)) (st_stdout st) (st_stderr st)).
  assert (H1 : main enc sortSlice env order zE zB zD fl1 (f :: rest1) st = Done 0 st1).
  { unfold main, bind at 1, get_fs. rewrite Hf. unfold bind at 1.
    rewrite openOutput_run by (intros; rewrite Ho1; exact Hcc).
    rewrite Hc1, Ho1. destruct (String.eqb_spec c "") as [|_]; [contradiction|].
    cbn [negb andb]. rewrite Hd1, Hb1.
    unfold bind at 1, compressStream, bind at 1, get_fs. rewrite Hwc.
    unfold bind at 1, append_file, bind, get_fs, put_fs. cbn [st_fs st_stdout st_stderr].
    rewrite lookup_insert_eq, lookup_insert_ne by congruence. rewrite Hf. cbn [default app].
    rewrite insert_insert_eq. reflexivity. }
  exists st1. eexists. split; [exact H1|].
  assert (Hc1' : st_fs st1 !! c = Some (zE (fl_l fl1) X)) by apply lookup_insert_eq.
  unfold main, bind at 1, get_fs. rewrite Hc1'. unfold bind at 1.
  rewrite openOutput_run by (intros; rewrite Ho2; exact Hcg).
  rewrite Hc2, Ho2. destruct (String.eqb_spec g "") as [|_]; [contradiction|].
  cbn [negb andb]. rewrite Hd2.
  unfold bind at 1. rewrite decompressFile_io_run with (Y := zE (fl_l fl1) X); [|exact Hwg|].
  2:{ cbn [st_fs]. rewrite lookup_insert_ne by congruence. exact Hc1'. }
  rewrite Hinv. cbn [snd fst mbind option_bind]. split; [reflexivity|].
  cbn [st_fs]. rewrite !lookup_insert_eq. reflexivity.
Qed.

(** Block round trip through [main]: below the overflow bound,
    compressing [f] with [-b -T T -o c] (any completion order of the
    workers) and then decompressing [c] with [-d -o g] exits with status 0
    twice and leaves [g] holding the contents of [f], for a zstd decoder
    that decodes a concatenation of [EncodeAll] frames frame by frame. *)
Theorem main_block_round_trip enc sortSlice
    (Hperm : forall l, Permutation (sortSlice l) l)
    (Hsorted : forall l, Sorted index_le (sortSlice l))
    order zE zB zD fl1 fl2 f c g rest1 rest2 X st :
  zD [] = ([], None) ->
  (forall lvl ch r, zD (enc lvl ch ++ r) = (ch ++ fst (zD r), snd (zD r))) ->
  fl_d fl1 = false -> fl_b fl1 = true -> fl_c fl1 = false -> fl_o fl1 = c ->
  1 <= fl_T fl1 <= 2^63 - 1 -> Permutation order (zseq (fl_T fl1)) ->
  fl_d fl2 = true -> fl_c fl2 = false -> fl_o fl2 = g ->
  c <> "" -> g <> "" -> f <> c -> g <> c ->
  filepath_Base f <> "/" -> (forall j, partName j f <> f) -> (forall j, partName j f <> c) ->
  Z.of_nat (length X) <= maxSafeSize -> st_fs st !! f = Some X ->
  exists st1 st2,
    main enc sortSlice regularEnv order zE zB zD fl1 (f :: rest1) st = Done 0 st1 /\
    main enc sortSlice regularEnv order zE zB zD fl2 (c :: rest2) st1 = Done 0 st2 /\
    st_fs st2 !! g = Some X.
Proof.
  intros Hnil Hframe Hd1 Hb1 Hc1 Ho1 HT Horder Hd2 Hc2 Ho2 Hcn Hgn Hfc Hgc HB Hinp Hout HL Hf.
  set (dA := fun Y => match zD Y with (D, None) => Some D | _ => None end).
  assert (HdA_nil : dA [] = Some []) by (unfold dA; rewrite Hnil; reflexivity).
  assert (HdA_frame : forall lvl ch r,
            dA (enc lvl ch ++ r) = option_map (fun d => ch ++ d) (dA r)).
  { intros lvl ch r. unfold dA. rewrite Hframe. destruct (zD r) as [D [m|]]; reflexivity. }
  set (st0 := mkSt (<[c := []]> (st_fs st)) (st_stdout st) (st_stderr st)).
  destruct (compressFileBlock_safe enc dA HdA_nil HdA_frame sortSlice Hperm Hsorted f c
              (fl_l fl1) (fl_T fl1) order HT HB Hinp Hout Horder X st0 HL)
    as (st1 & Hrun & (Y & HY & HdY) & _).
  { cbn. rewrite lookup_insert_ne by congruence. exact Hf. }
  assert (HzY : zD Y = (X, None)).
  { unfold decompressFile, dA in HdY. destruct (zD Y) as [D [m|]]; congruence. }
  assert (H1 : main enc sortSlice regularEnv order zE zB zD fl1 (f :: rest1) st = Done 0 st1).
  { unfold main, bind at 1, get_fs. rewrite Hf. unfold bind at 1.
    rewrite openOutput_run by (intros; reflexivity).
    rewrite Hc1, Ho1. destruct (String.eqb_spec c "") as [|_]; [contradiction|].
    cbn [negb andb]. rewrite Hd1, Hb1, ?Ho1.
    destruct (String.eqb_spec c "") as [|_]; [contradiction|].
    replace (Z.of_nat (length _) <? 0) with false by (symmetry; apply Z.ltb_ge; lia).
    cbn [orb]. unfold bind at 1. fold st0. rewrite Hrun. reflexivity. }
  exists st1. eexists. split; [exact H1|].
  unfold main, bind at 1, get_fs. rewrite HY. unfold bind at 1.
  rewrite openOutput_run by (intros; reflexivity).
  rewrite Hc2, Ho2. destruct (String.eqb_spec g "") as [|_]; [contradiction|].
  cbn [negb andb]. rewrite Hd2.
  unfold bind at 1. rewrite decompressFile_io_run with (Y := Y); [|reflexivity|].
  2:{ cbn [st_fs]. rewrite lookup_insert_ne by congruence. exact HY. }
  rewrite HzY. cbn [snd fst mbind option_bind]. split; [reflexivity|].
  cbn [st_fs]. rewrite !lookup_insert_eq. reflexivity.
Qed.

(** ** [concatenateFiles] on a malformed name *)

Lemma split_dash_no_dash s :
  ~ In "-"%char (list_ascii_of_string s) -> split_dash s = [s].
Proof.
  induction s as [|ch s IH]; intros Hn; [reflexivity|].
  cbn in Hn. rewrite split_dash_cons by (intros E; apply Hn; left; congruence).
  rewrite IH by (intros H; apply Hn; right; exact H). reflexivity.
Qed.

Lemma split_dash_first p r :
  ~ In "-"%char (list_ascii_of_string p) -> split_dash (p +++ "-" +++ r) = [p; r].
Proof.
  induction p as [|ch p IH]; intros Hn; [reflexivity|].
  cbn in Hn. rewrite append_String, split_dash_cons by (intros E; apply Hn; left; congruence).
  rewrite IH by (intros H; apply Hn; right; exact H). reflexivity.
Qed.

Lemma parseNames_app pre l rest :
  parseNames pre = (None, l) ->
  parseNames (pre ++ rest) = let '(e, l') := parseNames rest in (e, l ++ l').
Proof.
  revert l. induction pre as [|n pre IH]; intros l H; cbn in H.
  - injection H as <-. cbn. destruct (parseNames rest); reflexivity.
  - cbn [app parseNames].
    destruct (split_dash (filepath_Base n)) as [|p0 [|p1 r]]; try discriminate.
    destruct (atoi p0) as [i|]; [|discriminate].
    destruct (parseNames pre) as [e l0] eqn:E. injection H as -> <-.
    rewrite (IH l0 eq_refl). destruct (parseNames rest). reflexivity.
Qed.

(** [concatenateFiles] checks every name before it creates, copies or
    removes anything: at the first name [n] whose base has no ["-"], or
    whose text before the first ["-"] is not an integer, it returns
    "invalid filename pattern" or "invalid index in filename" with [n] and
    the file system is left as it was. *)
Theorem concatenateFiles_bad_name sortSlice env pre l n post outputFile st :
  parseNames pre = (None, l) ->
  (~ In "-"%char (list_ascii_of_string (filepath_Base n)) ->
     concatenateFiles sortSlice env (pre ++ n :: post) outputFile st
     = Done (Some ("invalid filename pattern: " +++ n)) st) /\
  (forall p r, filepath_Base n = p +++ "-" +++ r ->
     ~ In "-"%char (list_ascii_of_string p) -> atoi p = None ->
     concatenateFiles sortSlice env (pre ++ n :: post) outputFile st
     = Done (Some ("invalid index in filename: " +++ n)) st).
Proof.
  intros Hpre. split.
  - intros Hn. unfold concatenateFiles. rewrite (parseNames_app pre l _ Hpre).
    cbn [parseNames]. rewrite split_dash_no_dash by exact Hn. reflexivity.
  - intros p r Hb Hp Ha. unfold concatenateFiles. rewrite (parseNames_app pre l _ Hpre).
    cbn [parseNames]. rewrite Hb, split_dash_first, Ha by exact Hp. reflexivity.
Qed.

(** ** Witnesses at concrete inputs *)

Lemma partName_in_short j f : (String.length f < 20)%nat -> partName j "in" <> f.
Proof. intros Hf E. pose proof (parts_name_long j "in") as Hl. rewrite E in Hl. lia. Qed.

(** The side conditions of the witnesses below, on concrete values. *)
Ltac wit_solve :=
  first [ reflexivity | discriminate | (cbn; lia) | apply perm_swap
        | (intros j; apply partName_in_short; cbn; lia)
        | (unfold maxSafeSize, oneMB; cbn; lia) | (vm_compute; reflexivity)
        | (left; reflexivity) ].

(** [main_early_failures]: a missing input file, then [-b] without [-o]. *)
Lemma main_early_failures_witness :
  let st0 := mkSt {[ "x" := [x01] ]} [] [] in
  main (fun _ c => c) (merge_sort index_le) regularEnv [0] (fun _ c => c) (fun _ => 131072%positive) (fun c => (c, None))
    (mkFlags false false "out" 3 2 false) ["in"] st0
  = Done 1 (mkSt (st_fs st0)
              (st_stdout st0 ++ ["Failed to open input file: open " +++ "in"
                                 +++ ": no such file or directory"]) (st_stderr st0)) /\
  main (fun _ c => c) (merge_sort index_le) regularEnv [0] (fun _ c => c) (fun _ => 131072%positive) (fun c => (c, None))
    (mkFlags false false "" 3 2 true) [] st0 = Panicked blockModeMsg st0.
Proof.
  intros st0. split.
  - apply (proj1 (main_early_failures (fun _ c => c) (merge_sort index_le) regularEnv [0]
             (fun _ c => c) (fun _ => 131072%positive) (fun c => (c, None)) (mkFlags false false "out" 3 2 false)
             ["in"] st0) "in" []); [reflexivity|vm_compute; reflexivity].
  - apply (proj2 (main_early_failures (fun _ c => c) (merge_sort index_le) regularEnv [0]
             (fun _ c => c) (fun _ => 131072%positive) (fun c => (c, None)) (mkFlags false false "" 3 2 true) [] st0));
      try reflexivity.
    intros a rest E. discriminate E.
Defined.

(** [main_block_without_input]: [-b -o out] and no argument. *)
Lemma main_block_without_input_witness :
  let st0 := mkSt {[ "in" := [x01] ]} [] [] in
  main (fun _ c => c) (merge_sort index_le) regularEnv [0; 1] (fun _ c => c) (fun _ => 131072%positive)
    (fun c => (c, None)) (mkFlags false false "out" 3 2 true) [] st0
  = Done 1 (mkSt (<[ "out" := [] ]> (st_fs st0))
              (st_stdout st0 ++ ["Block mode compression failed: stat : no such file or directory"])
              (st_stderr st0)).
Proof.
  intros st0.
  apply (main_block_without_input (fun _ c => c) (merge_sort index_le) regularEnv [0; 1]
           (fun _ c => c) (fun _ => 131072%positive) (fun c => (c, None)) (mkFlags false false "out" 3 2 true) "out" st0).
  all: wit_solve.
Defined.

(** [main_block_zero_threads]: [-b -T 0 -o out in]. *)
Lemma main_block_zero_threads_witness :
  let st0 := mkSt {[ "in" := [x01; x02] ]} [] [] in
  main (fun _ c => c) (merge_sort index_le) regularEnv [] (fun _ c => c) (fun _ => 131072%positive)
    (fun c => (c, None)) (mkFlags false false "out" 3 0 true) ["in"] st0
  = Panicked "runtime error: integer divide by zero"
      (mkSt (<[ "out" := [] ]> (st_fs st0)) (st_stdout st0) (st_stderr st0)).
Proof.
  intros st0.
  apply (main_block_zero_threads (fun _ c => c) (merge_sort index_le) regularEnv []
           (fun _ c => c) (fun _ => 131072%positive) (fun c => (c, None)) (mkFlags false false "out" 3 0 true) "in" []
           "out" [x01; x02] st0).
  all: wit_solve.
Defined.

(** [main_block_output_is_input]: [-b -T 2 -o in in] on a 3-byte file. *)
Lemma main_block_output_is_input_witness :
  let st0 := mkSt {[ "in" := [x01; x02; x03] ]} [] [] in
  main (fun _ c => c) (merge_sort index_le) regularEnv [1; 0] (fun _ c => c) (fun _ => 131072%positive)
    (fun c => (c, None)) (mkFlags false false "in" 3 2 true) ["in"] st0
  = Done 0 (mkSt (deleteAll (map (fun i => partName i "in") (zseq 2)) (<[ "in" := [] ]> (st_fs st0)))
                 (st_stdout st0) (st_stderr st0 ++ ["Working, please wait ..."])).
Proof.
  intros st0.
  apply (main_block_output_is_input (fun _ c => c) (merge_sort index_le)
           merge_sort_index_perm merge_sort_index_sorted [1; 0] (fun _ c => c) (fun _ => 131072%positive)
           (fun c => (c, None)) (mkFlags false false "in" 3 2 true) "in" [] [x01; x02; x03] st0).
  all: wit_solve.
Defined.

(** [main_block_stdout_flag_no_output]: [-b -c -o out in] where [out]
    cannot be created. *)
Lemma main_block_stdout_flag_no_output_witness :
  let st0 := mkSt {[ "in" := [x01] ]} [] [] in
  exists st',
    main (fun _ c => c) (merge_sort index_le) (createFailEnv "out" "open out: permission denied")
      [1; 0] (fun _ c => c) (fun _ => 131072%positive) (fun c => (c, None)) (mkFlags false true "out" 3 2 true) ["in"] st0
    = Done 0 st' /\
    st_fs st' !! "out" = st_fs st0 !! "out" /\ st_stdout st' = st_stdout st0 /\
    (forall j, 0 <= j < 2 -> is_Some (st_fs st' !! partName j "in")).
Proof.
  intros st0.
  apply (main_block_stdout_flag_no_output (fun _ c => c) (merge_sort index_le)
           (fun _ c => c) (fun _ => 131072%positive) (fun c => (c, None)) (mkFlags false true "out" 3 2 true) "in" []
           "out" "open out: permission denied" [1; 0] [x01] st0).
  all: wit_solve.
Defined.

(** [main_stream_output_is_input]: [-o in in] in stream mode. *)
Lemma main_stream_output_is_input_witness :
  let st0 := mkSt {[ "in" := [x01; x02] ]} [] [] in
  main (fun _ c => c) (merge_sort index_le) regularEnv [] (fun _ c => c) (fun _ => 131072%positive)
    (fun c => (c, None)) (mkFlags false false "in" 3 2 false) ["in"] st0
  = Done 0 (mkSt (<[ "in" := [] ]> (st_fs st0)) (st_stdout st0) (st_stderr st0)).
Proof.
  intros st0.
  apply (main_stream_output_is_input (fun _ c => c) (merge_sort index_le) regularEnv []
           (fun _ c => c) (fun _ => 131072%positive) (fun c => (c, None)) (mkFlags false false "in" 3 2 false) "in" []
           [x01; x02] st0).
  all: wit_solve.
Defined.

(** [main_stream_stdout_flag]: [-c -o out in] in stream mode, standard
    output on a full device and an encoder block of two bytes. *)
Lemma main_stream_stdout_flag_witness :
  let st0 := mkSt {[ "in" := [x01; x02] ]} [] [] in
  let env0 := mkEnv (fun _ => regularRead) (fun _ => None)
                (fun n => if String.eqb n stdoutName
                          then Some "write /dev/stdout: no space left on device" else None) in
  main (fun _ c => c) (merge_sort index_le) env0 [] (fun _ c => c) (fun _ => 2%positive)
    (fun c => (c, None)) (mkFlags false true "out" 3 2 false) ["in"] st0
  = Done 1 (mkSt (st_fs st0)
              (st_stdout st0 ++ ["Stream mode compression failed: failed to compress data: "
                                 +++ "write /dev/stdout: no space left on device"])
              (st_stderr st0)).
Proof.
  intros st0 env0.
  apply (proj1 (proj2 (main_stream_stdout_flag (fun _ c => c) (merge_sort index_le) env0 []
           (fun _ c => c) (fun _ => 2%positive) (fun c => (c, None))
           (mkFlags false true "out" 3 2 false) "in" [] [x01; x02] st0
           eq_refl eq_refl eq_refl eq_refl))).
  all: wit_solve.
Defined.

(** [main_stream_round_trip]: [-o c in], then [-d -o g c], for the
    identity codec. *)
Lemma main_stream_round_trip_witness :
  let st0 := mkSt {[ "in" := [x01; x02] ]} [] [] in
  exists st1 st2,
    main (fun _ c => c) (merge_sort index_le) regularEnv [] (fun _ c => c) (fun _ => 131072%positive)
      (fun c => (c, None)) (mkFlags false false "c" 3 2 false) ["in"] st0 = Done 0 st1 /\
    main (fun _ c => c) (merge_sort index_le) regularEnv [] (fun _ c => c) (fun _ => 131072%positive)
      (fun c => (c, None)) (mkFlags true false "g" 3 2 false) ["c"] st1 = Done 0 st2 /\
    st_fs st2 !! "g" = Some [x01; x02].
Proof.
  intros st0.
  apply (main_stream_round_trip (fun _ c => c) (merge_sort index_le) regularEnv []
           (fun _ c => c) (fun _ => 131072%positive) (fun c => (c, None)) (mkFlags false false "c" 3 2 false)
           (mkFlags true false "g" 3 2 false) "in" "c" "g" [] [] [x01; x02] st0).
  all: wit_solve.
Defined.

(** [main_block_round_trip]: [-b -T 2 -o c in] with the workers
    completing in the order [1; 0], then [-d -o g c], for the identity
    codec. *)
Lemma main_block_round_trip_witness :
  let st0 := mkSt {[ "in" := [x01; x02; x03] ]} [] [] in
  exists st1 st2,
    main (fun _ c => c) (merge_sort index_le) regularEnv [1; 0] (fun _ c => c) (fun _ => 131072%positive)
      (fun c => (c, None)) (mkFlags false false "c" 3 2 true) ["in"] st0 = Done 0 st1 /\
    main (fun _ c => c) (merge_sort index_le) regularEnv [1; 0] (fun _ c => c) (fun _ => 131072%positive)
      (fun c => (c, None)) (mkFlags true false "g" 3 2 false) ["c"] st1 = Done 0 st2 /\
    st_fs st2 !! "g" = Some [x01; x02; x03].
Proof.
  intros st0.
  apply (main_block_round_trip (fun _ c => c) (merge_sort index_le)
           merge_sort_index_perm merge_sort_index_sorted [1; 0] (fun _ c => c) (fun _ => 131072%positive)
           (fun c => (c, None)) (mkFlags false false "c" 3 2 true)
           (mkFlags true false "g" 3 2 false) "in" "c" "g" [] [] [x01; x02; x03] st0).
  all: wit_solve.
Defined.

(** [concatenateFiles_bad_name]: ["dir/file"] after the part name
    ["0-a"]. *)
Lemma concatenateFiles_bad_name_witness :
  let st0 := mkSt {[ "0-a" := [x01] ]} [] [] in
  concatenateFiles (merge_sort index_le) regularEnv (["0-a"] ++ "dir/file" :: []) "out" st0
  = Done (Some ("invalid filename pattern: " +++ "dir/file")) st0.
Proof.
  intros st0.
  apply (proj1 (concatenateFiles_bad_name (merge_sort index_le) regularEnv ["0-a"]
                  [mkFileWithIndex 0 "0-a"] "dir/file" [] "out" st0 eq_refl)).
  vm_compute. intros H. repeat (destruct H as [H|H]; [discriminate H|]). exact H.
Defined.
